(** * The contact endpoint of [server.js]

    A shallow embedding of the one request handler of the site's server,
    [app.post('/api/contact', contactLimiter, ...)], and of the helper
    [esc], followed by the properties the specification states about them.

    Conventions.
    - A JavaScript string is the list of its UTF-16 code units.
    - A value read from the JSON request body is [undefined] (key absent),
      [null], a string, or some other JSON value (boolean, number, array,
      object).
    - The handler runs in a small monad that records the console and mail
      effects it performs and ends normally, with a response, or with a
      thrown exception. *)

From Stdlib Require Import List NArith Ascii String Bool Lia DecimalString.
Import ListNotations.

Local Open Scope N_scope.
Local Open Scope list_scope.

(* ===================================================================== *)
(** ** JavaScript strings                                                *)
(* ===================================================================== *)

Definition jsstring := list N.

(** An ASCII literal of the source, as code units. *)
Definition lit (s : string) : jsstring :=
  map N_of_ascii (list_ascii_of_string s).

Definition QUOT : N := 34.  (* the double quote *)
Definition AMP  : N := 38.  (* & *)
Definition LT   : N := 60.  (* < *)
Definition GT   : N := 62.  (* > *)
Definition LF   : N := 10.  (* \n *)

(** [s] between double quotes, as in an HTML attribute value. *)
Definition quoted (s : jsstring) : jsstring := QUOT :: s ++ [QUOT].

Definition jsstring_eqb (a b : jsstring) : bool :=
  if list_eq_dec N.eq_dec a b then true else false.

(** [s.length] *)
Definition js_length (s : jsstring) : N := N.of_nat (List.length s).

(** Template-literal conversion of a non-negative integer literal:
    [`${200}`] is ["200"]. *)
Definition number_to_string (n : N) : jsstring :=
  lit (NilZero.string_of_uint (N.to_uint n)).

(** ECMAScript WhiteSpace and LineTerminator code points: what
    [String.prototype.trim] strips and what [\s] matches. *)
Definition is_js_space (c : N) : bool :=
  existsb (N.eqb c)
    [9; 10; 11; 12; 13; 32; 160; 5760; 8232; 8233; 8239; 8287; 12288; 65279]
  || ((8192 <=? c) && (c <=? 8202)).

(** [\d] without the unicode flag: the ASCII digits. *)
Definition is_js_digit (c : N) : bool := (48 <=? c) && (c <=? 57).

Fixpoint trim_start (s : jsstring) : jsstring :=
  match s with
  | c :: rest => if is_js_space c then trim_start rest else s
  | [] => []
  end.

(** [s.trim()] *)
Definition js_trim (s : jsstring) : jsstring :=
  rev (trim_start (rev (trim_start s))).

(** [s.replace(/c/g, by)] for a one-character pattern [c] and a
    replacement text without [$] patterns. *)
Definition replace_all (c : N) (by_ : jsstring) (s : jsstring) : jsstring :=
  flat_map (fun x => if x =? c then by_ else [x]) s.

(** [needle] occurs at the start of [s]. *)
Fixpoint starts_with (needle s : jsstring) : bool :=
  match needle, s with
  | [], _ => true
  | a :: needle', b :: s' => (a =? b) && starts_with needle' s'
  | _ :: _, [] => false
  end.

(** [s.includes(needle)] *)
Fixpoint includes (needle s : jsstring) : bool :=
  starts_with needle s
  || match s with
     | [] => false
     | _ :: s' => includes needle s'
     end.

(* ===================================================================== *)
(** ** Regular expressions                                               *)
(* ===================================================================== *)

(** The fragment of the regular expression syntax the server uses. *)
Inductive class_atom : Type :=
| CDigit                 (* \d *)
| CSpace                 (* \s *)
| CChar (c : N).         (* a literal or escaped character *)

Definition atom_mem (c : N) (a : class_atom) : bool :=
  match a with
  | CDigit => is_js_digit c
  | CSpace => is_js_space c
  | CChar d => c =? d
  end.

Inductive regex : Type :=
| RVoid
| REps
| RClass (atoms : list class_atom)     (* [...] *)
| RCat (r1 r2 : regex)
| RAlt (r1 r2 : regex)
| RStar (r : regex).

(** [r+] *)
Definition RPlus (r : regex) : regex := RCat r (RStar r).

Fixpoint nullable (r : regex) : bool :=
  match r with
  | RVoid => false
  | REps => true
  | RClass _ => false
  | RCat r1 r2 => nullable r1 && nullable r2
  | RAlt r1 r2 => nullable r1 || nullable r2
  | RStar _ => true
  end.

Fixpoint deriv (c : N) (r : regex) : regex :=
  match r with
  | RVoid => RVoid
  | REps => RVoid
  | RClass atoms => if existsb (atom_mem c) atoms then REps else RVoid
  | RCat r1 r2 =>
      if nullable r1
      then RAlt (RCat (deriv c r1) r2) (deriv c r2)
      else RCat (deriv c r1) r2
  | RAlt r1 r2 => RAlt (deriv c r1) (deriv c r2)
  | RStar r1 => RCat (deriv c r1) (RStar r1)
  end.

(** [/^r$/.test(s)]: with both anchors and no [m] flag the whole of [s]
    must match [r]. *)
Fixpoint matches_whole (r : regex) (s : jsstring) : bool :=
  match s with
  | [] => nullable r
  | c :: rest => matches_whole (deriv c r) rest
  end.

(** The strings a regular expression denotes. *)
Inductive denotes : regex -> jsstring -> Prop :=
| denotes_eps : denotes REps []
| denotes_class atoms c :
    existsb (atom_mem c) atoms = true -> denotes (RClass atoms) [c]
| denotes_cat r1 r2 s1 s2 :
    denotes r1 s1 -> denotes r2 s2 -> denotes (RCat r1 r2) (s1 ++ s2)
| denotes_alt_l r1 r2 s : denotes r1 s -> denotes (RAlt r1 r2) s
| denotes_alt_r r1 r2 s : denotes r2 s -> denotes (RAlt r1 r2) s
| denotes_star_nil r : denotes (RStar r) []
| denotes_star_cons r s1 s2 :
    denotes r s1 -> denotes (RStar r) s2 -> denotes (RStar r) (s1 ++ s2).

(* ===================================================================== *)
(** ** Values of the request body                                        *)
(* ===================================================================== *)

(** What [req.body[k]] can be after [express.json()] parsed the body.
    [VOther] stands for a boolean, number, array or object; the handler
    observes only its truthiness and what [String(v)] gives for it
    ([None] when the conversion throws, as for an object whose own
    [toString] property is not callable). *)
Inductive value : Type :=
| VUndefined
| VNull
| VString (s : jsstring)
| VOther (truthy : bool) (str : option jsstring).

(** Examples of [VOther]: the number [123], the number [0], [[]]. *)
Definition js_number_123 : value := VOther true (Some (lit "123")).
Definition js_number_0 : value := VOther false (Some (lit "0")).
Definition js_empty_array : value := VOther true (Some []).

(** [v == null] *)
Definition is_nullish (v : value) : bool :=
  match v with
  | VUndefined | VNull => true
  | _ => false
  end.

(** ToBoolean *)
Definition truthy (v : value) : bool :=
  match v with
  | VUndefined | VNull => false
  | VString s => negb (jsstring_eqb s [])
  | VOther t _ => t
  end.

(** [v === s] for a string literal [s] *)
Definition strict_eq_string (v : value) (s : jsstring) : bool :=
  match v with
  | VString s' => jsstring_eqb s' s
  | _ => false
  end.

(* ===================================================================== *)
(** ** Effects of the handler                                            *)
(* ===================================================================== *)

(** The JSON bodies the handler sends: [{ok, error?, fields?}]. *)
Record payload : Type := {
  ok : bool;
  error : option jsstring;
  fields : option (list jsstring)
}.

Record response : Type := {
  status : N;
  json : payload
}.

(** The argument of [transporter.sendMail]. *)
Record mail : Type := {
  from : jsstring;
  to : jsstring;
  subject : jsstring;
  html : jsstring
}.

(** The argument of [nodemailer.createTransport]. *)
Record transport_options : Type := {
  service : jsstring;
  auth_user : jsstring;
  auth_pass : jsstring
}.

(** Exceptions. The message of a [TypeError] is the engine's and is never
    read by the server. *)
Inductive exn : Type :=
| TypeError (msg : jsstring)
| TransportError (msg : jsstring).

(** [err.message] *)
Definition exn_message (e : exn) : jsstring :=
  match e with
  | TypeError m | TransportError m => m
  end.

Inductive event : Type :=
| ConsoleWarn (msg : jsstring)
| ConsoleError (label msg : jsstring)
| SendMail (t : transport_options) (m : mail).

(** How a piece of the handler ends: it falls through with a value, it
    has sent the response and returned, or it has thrown. *)
Inductive completion (A : Type) : Type :=
| Normal (a : A)
| Responded (r : response)
| Thrown (e : exn).

Arguments Normal {A} a.
Arguments Responded {A} r.
Arguments Thrown {A} e.

(** A computation: the events it performed, in order, and how it ended. *)
Definition M (A : Type) : Type := (list event * completion A)%type.

Definition ret {A : Type} (a : A) : M A := ([], Normal a).

Definition bind {A B : Type} (m : M A) (k : A -> M B) : M B :=
  match m with
  | (t, Normal a) => let (t', c) := k a in (t ++ t', c)
  | (t, Responded r) => (t, Responded r)
  | (t, Thrown e) => (t, Thrown e)
  end.

Declare Scope js_scope.
Delimit Scope js_scope with js.
Notation "x <- m ;; k" := (bind m (fun x => k))
  (at level 100, m at next level, right associativity) : js_scope.
Notation "m ;; k" := (bind m (fun _ => k))
  (at level 100, right associativity) : js_scope.
Local Open Scope js_scope.

Definition throw {A : Type} (e : exn) : M A := ([], Thrown e).

Definition emit (e : event) : M unit := ([e], Normal tt).

(** [return res.status(code).json(body)] *)
Definition respond {A : Type} (code : N) (body : payload) : M A :=
  ([], Responded {| status := code; json := body |}).

(** [try { body } catch (err) { handler }] *)
Definition try_catch {A : Type} (body : M A) (handler : exn -> M A) : M A :=
  match body with
  | (t, Thrown e) => let (t', c) := handler e in (t ++ t', c)
  | other => other
  end.

(** [for (const x of l) { body }] *)
Fixpoint for_of {A : Type} (l : list A) (body : A -> M unit) : M unit :=
  match l with
  | [] => ret tt
  | x :: rest => body x ;; for_of rest body
  end.

(** [l.length] of an array *)
Definition array_length {A : Type} (l : list A) : N := N.of_nat (List.length l).

(** [l.filter(p)] for a callback that may throw. *)
Fixpoint filterM {A : Type} (p : A -> M bool) (l : list A) : M (list A) :=
  match l with
  | [] => ret []
  | x :: rest =>
      keep <- p x ;;
      rest' <- filterM p rest ;;
      ret (if keep then x :: rest' else rest')
  end.

(** [String(v)] *)
Definition ToString (v : value) : M jsstring :=
  match v with
  | VUndefined => ret (lit "undefined")
  | VNull => ret (lit "null")
  | VString s => ret s
  | VOther _ (Some s) => ret s
  | VOther _ None =>
      throw (TypeError (lit "Cannot convert object to primitive value"))
  end.

(** [v.trim()]: only strings have the method. *)
Definition call_trim (v : value) : M jsstring :=
  match v with
  | VString s => ret (js_trim s)
  | VUndefined | VNull =>
      throw (TypeError (lit "Cannot read properties of undefined (reading 'trim')"))
  | VOther _ _ => throw (TypeError (lit "trim is not a function"))
  end.

(** [a ?? b] *)
Definition nullish_coalesce (a b : value) : value :=
  if is_nullish a then b else a.

(** [re.test(v)] for an anchored expression [/^r$/]. *)
Definition regex_test (r : regex) (v : value) : M bool :=
  s <- ToString v ;;
  ret (matches_whole r s).

(* ===================================================================== *)
(** ** [esc]                                                             *)
(* ===================================================================== *)

(** [function esc(str)]: four global replacements, [&] first. *)
Definition esc (str : value) : M jsstring :=
  s <- ToString str ;;
  ret (replace_all QUOT (lit "&quot;")
        (replace_all GT (lit "&gt;")
          (replace_all LT (lit "&lt;")
            (replace_all AMP (lit "&amp;") s)))).

(* ===================================================================== *)
(** ** The request body                                                  *)
(* ===================================================================== *)

(** The six properties of the parsed body the handler reads; a key that
    is absent from the JSON object reads as [VUndefined]. *)
Record Body : Type := {
  name : value;
  phone : value;
  caseType : value;
  email : value;
  message : value;
  lang : value
}.

(** [{}] *)
Definition empty_object : Body :=
  {| name := VUndefined; phone := VUndefined; caseType := VUndefined;
     email := VUndefined; message := VUndefined; lang := VUndefined |}.

(** [b[k]] *)
Definition prop (b : Body) (k : jsstring) : value :=
  if jsstring_eqb k (lit "name") then name b
  else if jsstring_eqb k (lit "phone") then phone b
  else if jsstring_eqb k (lit "caseType") then caseType b
  else if jsstring_eqb k (lit "email") then email b
  else if jsstring_eqb k (lit "message") then message b
  else if jsstring_eqb k (lit "lang") then lang b
  else VUndefined.

(** [req.body[k]], where [req.body] may be [undefined]. *)
Definition member (req_body : option Body) (k : jsstring) : M value :=
  match req_body with
  | Some b => ret (prop b k)
  | None =>
      throw (TypeError (lit "Cannot read properties of undefined"))
  end.

(* ===================================================================== *)
(** ** Text of the email templates                                       *)
(* ===================================================================== *)

(** The non-ASCII literals of the source, as code units. *)

(* U+2013, the dash of the subject line and of the console warning *)
Definition EN_DASH : N := 8211.

(* 'פנייה חדשה: ' *)
Definition he_subject_prefix : jsstring :=
  [1508; 1504; 1497; 1497; 1492; 32; 1495; 1491; 1513; 1492; 58; 32].

(* 'פנייה חדשה מאתר אלון פרדו' *)
Definition he_heading : jsstring :=
  [1508; 1504; 1497; 1497; 1492; 32; 1495; 1491; 1513; 1492; 32;
   1502; 1488; 1514; 1512; 32; 1488; 1500; 1493; 1503; 32;
   1508; 1512; 1491; 1493].

(* 'שם' *)
Definition he_name : jsstring := [1513; 1501].

(* 'טלפון' *)
Definition he_phone : jsstring := [1496; 1500; 1508; 1493; 1503].

(* 'סוג התיק' *)
Definition he_case_type : jsstring :=
  [1505; 1493; 1490; 32; 1492; 1514; 1497; 1511].

(* 'אימייל' *)
Definition he_email : jsstring := [1488; 1497; 1502; 1497; 1497; 1500].

(* 'פרטים' *)
Definition he_message : jsstring := [1508; 1512; 1496; 1497; 1501].

(** [<td style="...">] *)
Definition td_open (style : string) : jsstring :=
  lit "<td style=" ++ quoted (lit style) ++ lit ">".

Definition label_style : string :=
  "padding:8px;font-weight:bold;border-bottom:1px solid #eee".

Definition value_style : string :=
  "padding:8px;border-bottom:1px solid #eee".

(** The template literal of [subject]. *)
Definition subject_template (isHe : bool) (safeName safeCaseType : jsstring)
  : jsstring :=
  if isHe
  then he_subject_prefix ++ safeName ++ [32; EN_DASH; 32] ++ safeCaseType
  else lit "New Contact: " ++ safeName ++ [32; EN_DASH; 32] ++ safeCaseType.

(** The nested template literal of the optional email row. *)
Definition email_row (isHe : bool) (safeEmail : jsstring) : jsstring :=
  if jsstring_eqb safeEmail [] then []
  else List.concat
    [ lit "<tr>"; td_open label_style;
      (if isHe then he_email else lit "Email"); lit "</td>";
      td_open value_style; safeEmail; lit "</td></tr>" ].

(** The template literal of [html]; each line of the source is one group
    of pieces, starting with its line break and indentation. *)
Definition html_template (isHe : bool)
    (safeName safePhone safeCaseType safeEmail safeMessage : jsstring)
  : jsstring :=
  List.concat
    [ [LF]; lit "        <div dir=";
      quoted (if isHe then lit "rtl" else lit "ltr");
      lit " style=";
      quoted (lit "font-family:sans-serif;max-width:600px;margin:0 auto");
      lit ">";
      [LF]; lit "            <h2 style="; quoted (lit "color:#835e21");
      lit ">";
      (if isHe then he_heading else lit "New contact from Alon Pardo website");
      lit "</h2>";
      [LF]; lit "            <table style=";
      quoted (lit "width:100%;border-collapse:collapse"); lit ">";
      [LF]; lit "                <tr>";
      td_open (label_style ++ ";width:30%")%string;
      (if isHe then he_name else lit "Name"); lit "</td>";
      td_open value_style; safeName; lit "</td></tr>";
      [LF]; lit "                <tr>"; td_open label_style;
      (if isHe then he_phone else lit "Phone"); lit "</td>";
      td_open value_style; safePhone; lit "</td></tr>";
      [LF]; lit "                <tr>"; td_open label_style;
      (if isHe then he_case_type else lit "Case Type"); lit "</td>";
      td_open value_style; safeCaseType; lit "</td></tr>";
      [LF]; lit "                "; email_row isHe safeEmail;
      [LF]; lit "                <tr>";
      td_open (label_style ++ ";vertical-align:top")%string;
      (if isHe then he_message else lit "Message"); lit "</td>";
      td_open value_style; safeMessage; lit "</td></tr>";
      [LF]; lit "            </table>";
      [LF]; lit "        </div>" ].

(* ===================================================================== *)
(** ** The server                                                        *)
(* ===================================================================== *)

(** The options given to [rateLimit]. *)
Record rate_limit_options : Type := {
  windowMs : N;
  max_requests : N;             (* [max] *)
  standardHeaders : bool;
  legacyHeaders : bool;
  limit_message : payload       (* [message] *)
}.

Definition contactLimiter : rate_limit_options :=
  {| windowMs := 15 * 60 * 1000;
     max_requests := 5;
     standardHeaders := true;
     legacyHeaders := false;
     limit_message :=
       {| ok := false;
          error := Some (lit "Too many requests, please try again later");
          fields := None |} |}.

(** [/^[\d\s\-+().]+$/], without its anchors. *)
Definition phone_re : regex :=
  RPlus (RClass [CDigit; CSpace; CChar 45; CChar 43; CChar 40; CChar 41;
                 CChar 46]).

(** [const required = { name, phone, caseType }], as its entries. *)
Definition required_entries (b : Body) : list (jsstring * value) :=
  [ (lit "name", name b); (lit "phone", phone b);
    (lit "caseType", caseType b) ].

(** [([, v]) => v == null || String(v).trim() === ''] *)
Definition is_missing (entry : jsstring * value) : M bool :=
  let v := snd entry in
  if is_nullish v then ret true
  else s <- ToString v ;; ret (jsstring_eqb (js_trim s) []).

(** [const missing = Object.entries(required).filter(...).map(([k]) => k)] *)
Definition missing_fields (b : Body) : M (list jsstring) :=
  kept <- filterM is_missing (required_entries b) ;;
  ret (map fst kept).

(** [const limits = {...}], as its entries. *)
Definition limits : list (jsstring * N) :=
  [ (lit "name", 200); (lit "phone", 30); (lit "caseType", 100);
    (lit "email", 254); (lit "message", 5000) ].

(** The body of the loop over [Object.entries(limits)]. *)
Definition check_limit (req_body : option Body) (entry : jsstring * N)
  : M unit :=
  let field := fst entry in
  let max := snd entry in
  v <- member req_body field ;;
  too_long <-
    (if truthy v
     then v' <- member req_body field ;;
          s <- ToString v' ;;
          ret (max <? js_length s)
     else ret false) ;;
  if too_long
  then respond 400
         {| ok := false;
            error := Some (field ++ lit " exceeds maximum length of "
                                 ++ number_to_string max);
            fields := None |}
  else ret tt.

(** Lines 94-115: the escaped fields, [isHe], [subject] and [html]. *)
Definition render (b : Body) : M (jsstring * jsstring) :=
  safeName <- (t <- call_trim (name b) ;; esc (VString t)) ;;
  safePhone <- (t <- call_trim (phone b) ;; esc (VString t)) ;;
  safeCaseType <- (t <- call_trim (caseType b) ;; esc (VString t)) ;;
  safeEmail <-
    (if truthy (email b)
     then t <- call_trim (email b) ;; esc (VString t)
     else ret []) ;;
  safeMessage <-
    (t <- call_trim (nullish_coalesce (message b) (VString [])) ;;
     e <- esc (VString t) ;;
     ret (replace_all LF (lit "<br>") e)) ;;
  let isHe := strict_eq_string (lang b) (lit "he") in
  ret (subject_template isHe safeName safeCaseType,
       html_template isHe safeName safePhone safeCaseType safeEmail
         safeMessage).

(** [req.body || {}]: the object the handler destructures. *)
Definition body_or_empty (req_body : option Body) : Body :=
  match req_body with
  | Some o => o
  | None => empty_object
  end.

(** Lines 66-87: the presence, length and phone-format checks, each
    returning its response at once when it fails. *)
Definition validate (req_body : option Body) : M unit :=
  let b := body_or_empty req_body in
  missing <- missing_fields b ;;
  (if negb (array_length missing =? 0)
   then respond 400
          {| ok := false; error := Some (lit "Missing required fields");
             fields := Some missing |}
   else ret tt) ;;
  for_of limits (check_limit req_body) ;;
  phone_ok <- regex_test phone_re (phone b) ;;
  if negb phone_ok
  then respond 400
         {| ok := false; error := Some (lit "Invalid phone format");
            fields := None |}
  else ret tt.

Section Server.

(** [process.env.SMTP_USER], [process.env.SMTP_PASS]: a string or
    undefined. *)
Variable SMTP_USER : option jsstring.
Variable SMTP_PASS : option jsstring.

(** The mail transport is external: [sendMail_result t m] is [None]
    when the promise of [sendMail] resolves and [Some msg] when it
    rejects with an error whose message is [msg]. *)
Variable sendMail_result : transport_options -> mail -> option jsstring.

(** [process.env.SMTP_USER || 'pardooren@gmail.com'] *)
Definition sender_account : jsstring :=
  match SMTP_USER with
  | Some (c :: u) => c :: u
  | _ => lit "pardooren@gmail.com"
  end.

(** [const transporter = process.env.SMTP_PASS ? createTransport(...) : null] *)
Definition transporter : option transport_options :=
  match SMTP_PASS with
  | Some (c :: p) =>
      Some {| service := lit "gmail";
              auth_user := sender_account;
              auth_pass := c :: p |}
  | _ => None
  end.

(** [await transporter.sendMail(m)] *)
Definition sendMail (t : transport_options) (m : mail) : M unit :=
  emit (SendMail t m) ;;
  match sendMail_result t m with
  | None => ret tt
  | Some msg => throw (TransportError msg)
  end.

(** The handler of [POST /api/contact]. *)
Definition handler (req_body : option Body) : M unit :=
  validate req_body ;;
  let b := body_or_empty req_body in
  match transporter with
  | None =>
      emit (ConsoleWarn
              (lit "SMTP_PASS not configured " ++ [EN_DASH]
                 ++ lit " email skipped")) ;;
      respond 503
        {| ok := false; error := Some (lit "Email not configured");
           fields := None |}
  | Some t =>
      rendered <- render b ;;
      try_catch
        (sendMail t
           {| from := quoted (lit "Alon Pardo Website") ++ lit " <"
                        ++ sender_account ++ lit ">";
              to := lit "pardooren@gmail.com";
              subject := fst rendered;
              html := snd rendered |} ;;
         respond 200 {| ok := true; error := None; fields := None |})
        (fun err =>
           emit (ConsoleError (lit "Email send error:")
                   (exn_message err)) ;;
           respond 500
             {| ok := false; error := Some (lit "Failed to send email");
                fields := None |})
  end.

(** [app.post('/api/contact', contactLimiter, handler)]: the limiter
    middleware runs first. Its decision is made by the rate-limiting
    package from its own store; when it refuses, it answers 429 with
    the configured message and the handler is not called. *)
Definition route (limiter_allows : bool) (req_body : option Body)
  : M unit :=
  if limiter_allows then handler req_body
  else respond 429 (limit_message contactLimiter).

End Server.

(* ===================================================================== *)
(** ** Notions of the specification                                      *)
(* ===================================================================== *)

(** The definitions of this part follow the words of the specification;
    the theorems below relate them to the code above. *)

(** The HTML entity that stands for a character, the character itself
    when it is not one of [&], [<], [>] and the double quote. *)
Definition entity (c : N) : jsstring :=
  if c =? AMP then lit "&amp;"
  else if c =? LT then lit "&lt;"
  else if c =? GT then lit "&gt;"
  else if c =? QUOT then lit "&quot;"
  else [c].

(** Every character replaced by its entity, in one pass. *)
Definition escape_html (s : jsstring) : jsstring := flat_map entity s.

(** Line breaks for newlines. *)
Definition nl2br (s : jsstring) : jsstring :=
  flat_map (fun c => if c =? LF then lit "<br>" else [c]) s.

(** A field of the data model is a string, when present: the value is
    not a boolean, number, array or object. *)
Definition stringy (v : value) : bool :=
  match v with
  | VOther _ _ => false
  | _ => true
  end.

(** A body whose five text fields are strings, [null] or absent. *)
Definition well_typed (b : Body) : bool :=
  stringy (name b) && stringy (phone b) && stringy (caseType b)
  && stringy (email b) && stringy (message b).

(** A body whose three required fields are strings, [null] or absent. *)
Definition required_typed (b : Body) : bool :=
  stringy (name b) && stringy (phone b) && stringy (caseType b).

(** The text of a field, empty when the field is absent or [null]. *)
Definition text_of (v : value) : jsstring :=
  match v with
  | VString s => s
  | _ => []
  end.

(** Absent, [null], or blank: only whitespace. *)
Definition blank (v : value) : bool :=
  match v with
  | VUndefined | VNull => true
  | VString s => forallb is_js_space s
  | VOther _ _ => false
  end.

(** The required field names that are missing or blank, in the order
    name, phone, caseType. *)
Definition missing_spec (b : Body) : list jsstring :=
  filter (fun k => blank (prop b k))
    [lit "name"; lit "phone"; lit "caseType"].

(** A field that exceeds a maximum length. *)
Definition exceeds (v : value) (max : N) : bool :=
  match v with
  | VString s => max <? js_length s
  | _ => false
  end.

(** The first field, in the order of [limits], that is too long. *)
Definition first_too_long (b : Body) : option (jsstring * N) :=
  find (fun e => exceeds (prop b (fst e)) (snd e)) limits.

(** A character allowed in a phone number: a digit, whitespace, hyphen,
    plus, parenthesis or period. *)
Definition phone_char (c : N) : bool :=
  is_js_digit c || is_js_space c
  || (c =? 45) || (c =? 43) || (c =? 40) || (c =? 41) || (c =? 46).

(** A required field of the data model: a string that is not blank and
    holds at most [max] characters. *)
Definition required_ok (v : value) (max : N) : bool :=
  match v with
  | VString s => negb (forallb is_js_space s) && (js_length s <=? max)
  | _ => false
  end.

(** An optional field of the data model: absent, [null], or a string of
    at most [max] characters. *)
Definition optional_ok (v : value) (max : N) : bool :=
  match v with
  | VUndefined | VNull => true
  | VString s => js_length s <=? max
  | VOther _ _ => false
  end.

(** A valid Contact Submission of the data model. *)
Definition valid_submission (b : Body) : bool :=
  required_ok (name b) 200
  && required_ok (phone b) 30
  && forallb phone_char (text_of (phone b))
  && required_ok (caseType b) 100
  && optional_ok (email b) 254
  && optional_ok (message b) 5000.

(** The labels of one language of the email. *)
Record labels : Type := {
  text_direction : jsstring;
  subject_prefix : jsstring;
  heading : jsstring;
  label_name : jsstring;
  label_phone : jsstring;
  label_case_type : jsstring;
  label_email : jsstring;
  label_message : jsstring
}.

Definition hebrew : labels :=
  {| text_direction := lit "rtl";
     subject_prefix := he_subject_prefix;
     heading := he_heading;
     label_name := he_name;
     label_phone := he_phone;
     label_case_type := he_case_type;
     label_email := he_email;
     label_message := he_message |}.

Definition english : labels :=
  {| text_direction := lit "ltr";
     subject_prefix := lit "New Contact: ";
     heading := lit "New contact from Alon Pardo website";
     label_name := lit "Name";
     label_phone := lit "Phone";
     label_case_type := lit "Case Type";
     label_email := lit "Email";
     label_message := lit "Message" |}.

(** One table row. *)
Definition table_row (style : string) (label text : jsstring) : jsstring :=
  lit "<tr>" ++ td_open style ++ label ++ lit "</td>"
    ++ td_open value_style ++ text ++ lit "</td></tr>".

(** The subject line, given the labels. *)
Definition subject_layout (l : labels) (safeName safeCaseType : jsstring)
  : jsstring :=
  subject_prefix l ++ safeName ++ [32; EN_DASH; 32] ++ safeCaseType.

(** The one layout of the email body, given the labels: a heading and a
    table of name, phone, case type, email (when there is one) and
    message. *)
Definition html_layout (l : labels)
    (safeName safePhone safeCaseType safeEmail safeMessage : jsstring)
  : jsstring :=
  [LF] ++ lit "        <div dir=" ++ quoted (text_direction l)
    ++ lit " style="
    ++ quoted (lit "font-family:sans-serif;max-width:600px;margin:0 auto")
    ++ lit ">"
    ++ [LF] ++ lit "            <h2 style=" ++ quoted (lit "color:#835e21")
    ++ lit ">" ++ heading l ++ lit "</h2>"
    ++ [LF] ++ lit "            <table style="
    ++ quoted (lit "width:100%;border-collapse:collapse") ++ lit ">"
    ++ [LF] ++ lit "                "
    ++ table_row (label_style ++ ";width:30%") (label_name l) safeName
    ++ [LF] ++ lit "                "
    ++ table_row label_style (label_phone l) safePhone
    ++ [LF] ++ lit "                "
    ++ table_row label_style (label_case_type l) safeCaseType
    ++ [LF] ++ lit "                "
    ++ (if jsstring_eqb safeEmail [] then []
        else table_row label_style (label_email l) safeEmail)
    ++ [LF] ++ lit "                "
    ++ table_row (label_style ++ ";vertical-align:top") (label_message l)
         safeMessage
    ++ [LF] ++ lit "            </table>"
    ++ [LF] ++ lit "        </div>".

(** The labels chosen by the [lang] field. *)
Definition labels_of (v : value) : labels :=
  if strict_eq_string v (lit "he") then hebrew else english.

(** In a text, every [<] opens one of the tags of the template or a line
    break: it is followed by [d] (div), [h] (h2), [t] (table, tr, td),
    [b] (br) or [/] (a closing tag). *)
Fixpoint only_template_tags (s : jsstring) : bool :=
  match s with
  | [] => true
  | c :: rest =>
      (if c =? LT
       then match rest with
            | d :: _ => existsb (N.eqb d) [100; 104; 116; 98; 47]
            | [] => false
            end
       else true)
      && only_template_tags rest
  end.

(** The responses of the interface: status and JSON body. *)
Definition failure (code : N) (msg : jsstring) : response :=
  {| status := code;
     json := {| ok := false; error := Some msg; fields := None |} |}.

Definition missing_response (names : list jsstring) : response :=
  {| status := 400;
     json := {| ok := false; error := Some (lit "Missing required fields");
                fields := Some names |} |}.

Definition too_long_response (field : jsstring) (max : N) : response :=
  failure 400
    (field ++ lit " exceeds maximum length of " ++ number_to_string max).

Definition invalid_phone_response : response :=
  failure 400 (lit "Invalid phone format").

Definition not_configured_response : response :=
  failure 503 (lit "Email not configured").

Definition send_failed_response : response :=
  failure 500 (lit "Failed to send email").

Definition success_response : response :=
  {| status := 200;
     json := {| ok := true; error := None; fields := None |} |}.

(** A field as it is shown in the email: trimmed, then escaped. *)
Definition safe_text (v : value) : jsstring :=
  escape_html (js_trim (text_of v)).

(** The subject and the body of the email of a submission, in the
    language of its [lang] field. *)
Definition expected_subject (b : Body) : jsstring :=
  subject_layout (labels_of (lang b))
    (safe_text (name b)) (safe_text (caseType b)).

Definition expected_html (b : Body) : jsstring :=
  html_layout (labels_of (lang b))
    (safe_text (name b)) (safe_text (phone b))
    (safe_text (caseType b)) (safe_text (email b))
    (nl2br (safe_text (message b))).

(** The email of a submission: fixed recipient, sender from the
    configuration, subject and body in the language of [lang]. *)
Definition expected_mail (SMTP_USER : option jsstring) (b : Body) : mail :=
  {| from := quoted (lit "Alon Pardo Website") ++ lit " <"
               ++ sender_account SMTP_USER ++ lit ">";
     to := lit "pardooren@gmail.com";
     subject := expected_subject b;
     html := expected_html b |}.

(** A computation that performs no console or mail effect. *)
Definition silent {A : Type} (m : M A) : Prop := fst m = [].

(** The status of the response a run of the handler ended with. *)
Definition status_of_handler_result (m : M unit) : option N :=
  match snd m with
  | Responded r => Some (status r)
  | _ => None
  end.

(** No mail was handed to the transport. *)
Definition no_send (trace : list event) : Prop :=
  forall t m, ~ In (SendMail t m) trace.

(* ===================================================================== *)
(** ** Example submissions                                               *)
(* ===================================================================== *)

(** A complete submission without the optional fields. *)
Definition example_valid : Body :=
  {| name := VString (lit "Dana Levi");
     phone := VString (lit "+1 (555) 123-4567");
     caseType := VString (lit "traffic");
     email := VUndefined; message := VNull; lang := VUndefined |}.

(** A submission in Hebrew with every field, the message on two lines. *)
Definition example_hebrew : Body :=
  {| name := VString (lit "Dana Levi");
     phone := VString (lit "050-1234567");
     caseType := VString (lit "criminal");
     email := VString (lit "dana@example.com");
     message := VString (lit "first line" ++ [LF] ++ lit "second line");
     lang := VString (lit "he") |}.

(** A submission whose name and message carry markup. *)
Definition example_script : Body :=
  {| name := VString (lit "<script>");
     phone := VString (lit "050-1234567");
     caseType := VString (lit "criminal");
     email := VString (lit "a&b@example.com");
     message := VString (lit "<script>alert(1)</script>" ++ [LF]
                           ++ lit "bye");
     lang := VString (lit "en") |}.

(** No name, a blank case type, and a phone number with letters. *)
Definition example_missing : Body :=
  {| name := VUndefined;
     phone := VString (lit "abc-123");
     caseType := VString (lit "   ");
     email := VUndefined; message := VUndefined; lang := VUndefined |}.

(** A name of 201 characters and a message of 5001. *)
Definition example_too_long : Body :=
  {| name := VString (repeat 97 (N.to_nat 201));
     phone := VString (lit "050-1234567");
     caseType := VString (lit "criminal");
     email := VUndefined;
     message := VString (repeat 98 (N.to_nat 5001));
     lang := VUndefined |}.

(** A phone number with letters in an otherwise complete submission. *)
Definition example_bad_phone : Body :=
  {| name := VString (lit "Dana Levi");
     phone := VString (lit "abc-123");
     caseType := VString (lit "traffic");
     email := VUndefined; message := VUndefined; lang := VUndefined |}.

(** A complete submission whose phone is the JSON number [123], not a
    string. *)
Definition example_numeric_phone : Body :=
  {| name := VString (lit "Dana Levi");
     phone := js_number_123;
     caseType := VString (lit "traffic");
     email := VUndefined; message := VUndefined; lang := VUndefined |}.

(** A transport that delivers every mail, and one that refuses every
    mail with the same error. *)
Definition always_delivers : transport_options -> mail -> option jsstring :=
  fun _ _ => None.

Definition always_fails : transport_options -> mail -> option jsstring :=
  fun _ _ => Some (lit "connect ECONNREFUSED 127.0.0.1:465").

(* ===================================================================== *)
(** ** Further notions                                                   *)
(* ===================================================================== *)

(** A character that [esc] leaves alone: none of [&], [<], [>] and the
    double quote. *)
Definition plain_char (c : N) : bool :=
  negb ((c =? AMP) || (c =? LT) || (c =? GT) || (c =? QUOT)).

(** A text that holds none of the four characters. *)
Definition plain (s : jsstring) : bool := forallb plain_char s.

(** A character that is no [<], [>] or double quote. *)
Definition no_markup_char (c : N) : bool :=
  negb ((c =? LT) || (c =? GT) || (c =? QUOT)).

(** A body with one property replaced. *)
Definition with_lang (v : value) (b : Body) : Body :=
  {| name := name b; phone := phone b; caseType := caseType b;
     email := email b; message := message b; lang := v |}.

Definition with_email (v : value) (b : Body) : Body :=
  {| name := name b; phone := phone b; caseType := caseType b;
     email := v; message := message b; lang := lang b |}.

Definition with_message (v : value) (b : Body) : Body :=
  {| name := name b; phone := phone b; caseType := caseType b;
     email := email b; message := v; lang := lang b |}.

(** A computation of the validation kind: it performs no effect, and it
    falls through, answers 400, or throws a [TypeError]. *)
Definition checked {A : Type} (m : M A) : Prop :=
  fst m = []
  /\ match snd m with
     | Normal _ => True
     | Responded r => status r = 400
     | Thrown e => exists msg, e = TypeError msg
     end.

Definition is_string (v : value) : bool :=
  match v with
  | VString _ => true
  | _ => false
  end.

(** The bodies on which lines 94-98 call [trim] on strings only: name,
    phone and caseType are strings, email is a string or falsy, message
    is a string, [null] or absent. *)
Definition renderable (b : Body) : bool :=
  is_string (name b) && is_string (phone b) && is_string (caseType b)
  && (is_string (email b) || negb (truthy (email b)))
  && (is_string (message b) || is_nullish (message b)).

(** The mails handed to the transport during a run, in order. *)
Fixpoint sent_mails (trace : list event) : list mail :=
  match trace with
  | [] => []
  | SendMail _ m :: rest => m :: sent_mails rest
  | _ :: rest => sent_mails rest
  end.

(** A name within its limit only once its surrounding blanks are
    counted out: 200 letters followed by one space. *)
Definition example_padded_name : Body :=
  {| name := VString (repeat 97 (N.to_nat 200) ++ [32]);
     phone := VString (lit "050-1234567");
     caseType := VString (lit "criminal");
     email := VUndefined; message := VUndefined; lang := VUndefined |}.

(** A submission whose optional fields are blank strings. *)
Definition example_blank_optionals : Body :=
  {| name := VString (lit "Dana Levi");
     phone := VString (lit " 050-1234567 ");
     caseType := VString (lit "criminal");
     email := VString (lit "   ");
     message := VString [32; LF; 9];
     lang := VUndefined |}.

(** The form of a response that reports a client error: status 400,
    [ok: false], an error text, and a [fields] array only beside the
    missing-fields error. *)
Definition client_error (r : response) : Prop :=
  status r = 400
  /\ ok (json r) = false
  /\ error (json r) <> None
  /\ (fields (json r) <> None ->
      error (json r) = Some (lit "Missing required fields")).

(** A computation that performs no effect and, when it answers, answers
    with a client error. *)
Definition rejecting {A : Type} (m : M A) : Prop :=
  fst m = []
  /\ match snd m with
     | Responded r => client_error r
     | _ => True
     end.

(** The first and the last code unit of a text. *)
Definition first_unit (s : jsstring) : option N := hd_error s.

Definition last_unit (s : jsstring) : option N := hd_error (rev s).

(* ===================================================================== *)
(** * Properties                                                         *)
(* ===================================================================== *)

(** ** Strings *)

Lemma jsstring_eqb_eq (a b : jsstring) : jsstring_eqb a b = true <-> a = b.
Proof.
  unfold jsstring_eqb. destruct (list_eq_dec N.eq_dec a b); split;
    intros; congruence.
Qed.

Lemma jsstring_eqb_refl (a : jsstring) : jsstring_eqb a a = true.
Proof. now apply jsstring_eqb_eq. Qed.

Lemma jsstring_eqb_nil (s : jsstring) :
  jsstring_eqb s [] = match s with [] => true | _ :: _ => false end.
Proof.
  unfold jsstring_eqb. destruct (list_eq_dec N.eq_dec s []); destruct s;
    congruence.
Qed.

Lemma replace_all_app c r (a b : jsstring) :
  replace_all c r (a ++ b) = replace_all c r a ++ replace_all c r b.
Proof. unfold replace_all. apply flat_map_app. Qed.

Lemma replace_all_cons c r x (s : jsstring) :
  replace_all c r (x :: s)
  = (if x =? c then r else [x]) ++ replace_all c r s.
Proof. reflexivity. Qed.

(** The four replacements of [esc], applied to what the first of them
    makes of one character, give the entity of that character: the [&]
    that an entity starts with is written by a later replacement and so
    is never escaped again. *)
Lemma esc_one_char (c : N) :
  replace_all QUOT (lit "&quot;")
    (replace_all GT (lit "&gt;")
      (replace_all LT (lit "&lt;")
        (if c =? AMP then lit "&amp;" else [c])))
  = entity c.
Proof.
  unfold entity.
  destruct (N.eqb_spec c AMP) as [->|Hamp]; [reflexivity|].
  destruct (N.eqb_spec c LT) as [->|Hlt]; [reflexivity|].
  destruct (N.eqb_spec c GT) as [->|Hgt]; [reflexivity|].
  destruct (N.eqb_spec c QUOT) as [->|Hquot]; [reflexivity|].
  apply N.eqb_neq in Hlt, Hgt, Hquot.
  unfold replace_all; cbn [flat_map app].
  rewrite Hlt; cbn [flat_map app].
  rewrite Hgt; cbn [flat_map app].
  now rewrite Hquot.
Qed.

Lemma esc_replacements_pointwise (s : jsstring) :
  replace_all QUOT (lit "&quot;")
    (replace_all GT (lit "&gt;")
      (replace_all LT (lit "&lt;")
        (replace_all AMP (lit "&amp;") s)))
  = escape_html s.
Proof.
  induction s as [|c s IH]; [reflexivity|].
  rewrite (replace_all_cons AMP), !replace_all_app, IH, esc_one_char.
  reflexivity.
Qed.

Lemma esc_string (s : jsstring) :
  esc (VString s) = ([], Normal (escape_html s)).
Proof.
  unfold esc, ToString, bind, ret; cbn [app].
  now rewrite esc_replacements_pointwise.
Qed.

(** No entity holds a markup character. *)
Lemma entity_no_markup (c x : N) :
  In x (entity c) -> x <> LT /\ x <> GT /\ x <> QUOT.
Proof.
  unfold entity.
  destruct (N.eqb_spec c AMP);
    [cbn; intros H; repeat destruct H as [<-|H]; try easy|].
  destruct (N.eqb_spec c LT);
    [cbn; intros H; repeat destruct H as [<-|H]; try easy|].
  destruct (N.eqb_spec c GT);
    [cbn; intros H; repeat destruct H as [<-|H]; try easy|].
  destruct (N.eqb_spec c QUOT);
    [cbn; intros H; repeat destruct H as [<-|H]; try easy|].
  intros [<-|[]]. auto.
Qed.

Lemma escape_html_no_markup (s : jsstring) (x : N) :
  In x (escape_html s) -> x <> LT /\ x <> GT /\ x <> QUOT.
Proof.
  unfold escape_html. rewrite in_flat_map. intros (c & _ & Hx).
  eapply entity_no_markup; eauto.
Qed.

(** C10. For every string, [esc] returns, and what it returns is the
    input with every character replaced by its entity in one pass
    ([&amp;] for [&], [&lt;] for [<], [&gt;] for [>], [&quot;] for the
    double quote, any other character unchanged): nothing is escaped
    twice, and the output holds no [<], [>] or double quote. *)
Theorem esc_output_has_no_markup (s : jsstring) :
  exists out,
    esc (VString s) = ([], Normal out)
    /\ out = flat_map entity s
    /\ entity AMP = lit "&amp;" /\ entity LT = lit "&lt;"
    /\ entity GT = lit "&gt;" /\ entity QUOT = lit "&quot;"
    /\ (forall c, c <> AMP -> c <> LT -> c <> GT -> c <> QUOT ->
                  entity c = [c])
    /\ (forall x, In x out -> x <> LT /\ x <> GT /\ x <> QUOT).
Proof.
  exists (escape_html s). split; [apply esc_string|].
  split; [reflexivity|]. repeat (split; [reflexivity|]).
  split.
  - intros c H1 H2 H3 H4. unfold entity.
    apply N.eqb_neq in H1, H2, H3, H4. now rewrite H1, H2, H3, H4.
  - apply escape_html_no_markup.
Qed.

(** ** Trimming *)

Lemma trim_start_nil_iff (s : jsstring) :
  trim_start s = [] <-> forallb is_js_space s = true.
Proof.
  induction s as [|c s IH]; cbn; [tauto|].
  destruct (is_js_space c); cbn; [exact IH|].
  split; discriminate.
Qed.

Lemma forallb_rev {A : Type} (p : A -> bool) (l : list A) :
  forallb p (rev l) = forallb p l.
Proof.
  induction l as [|x l IH]; [reflexivity|].
  cbn. rewrite forallb_app, IH. cbn. rewrite andb_true_r. apply andb_comm.
Qed.

Lemma trim_start_forallb (s : jsstring) :
  forallb is_js_space (trim_start s) = forallb is_js_space s.
Proof.
  induction s as [|c s IH]; [reflexivity|].
  cbn. destruct (is_js_space c) eqn:Hc; cbn; [exact IH|].
  now rewrite Hc.
Qed.

(** A string trims to the empty string exactly when it holds only
    whitespace. *)
Lemma js_trim_blank (s : jsstring) :
  jsstring_eqb (js_trim s) [] = forallb is_js_space s.
Proof.
  destruct (forallb is_js_space s) eqn:Hs.
  - apply jsstring_eqb_eq. unfold js_trim.
    apply trim_start_nil_iff in Hs. now rewrite Hs.
  - destruct (jsstring_eqb (js_trim s) []) eqn:Ht; [|reflexivity].
    apply jsstring_eqb_eq in Ht. unfold js_trim in Ht.
    apply (f_equal (@rev N)) in Ht. rewrite rev_involutive in Ht.
    cbn in Ht. apply trim_start_nil_iff in Ht.
    rewrite forallb_rev, trim_start_forallb in Ht. congruence.
Qed.

(** ** Regular expressions: the matcher decides the denotation *)

Lemma nullable_sound (r : regex) (s : jsstring) :
  denotes r s -> s = [] -> nullable r = true.
Proof.
  induction 1; intros Hs; cbn; try reflexivity; try discriminate.
  - apply app_eq_nil in Hs as [-> ->]. now rewrite IHdenotes1, IHdenotes2.
  - now rewrite IHdenotes.
  - rewrite IHdenotes by assumption. apply orb_true_r.
Qed.

Lemma nullable_complete (r : regex) : nullable r = true -> denotes r [].
Proof.
  induction r; cbn; intros H; try discriminate.
  - constructor.
  - apply andb_true_iff in H as [H1 H2].
    change (@nil N) with (@nil N ++ []). constructor; auto.
  - apply orb_true_iff in H as [H|H];
      [apply denotes_alt_l | apply denotes_alt_r]; auto.
  - constructor.
Qed.

Lemma deriv_sound (c : N) (r : regex) :
  forall s, denotes (deriv c r) s -> denotes r (c :: s).
Proof.
  induction r; cbn; intros s H.
  - inversion H.
  - inversion H.
  - destruct (existsb (atom_mem c) atoms) eqn:E; inversion H; subst.
    now constructor.
  - destruct (nullable r1) eqn:N1.
    + inversion H; subst.
      * match goal with
        | Hc : denotes (RCat _ _) _ |- _ => inversion Hc; subst
        end.
        change (c :: s1 ++ s2) with ((c :: s1) ++ s2). constructor; auto.
      * change (c :: s) with ([] ++ c :: s).
        constructor; [now apply nullable_complete | auto].
    + inversion H; subst.
      change (c :: s1 ++ s2) with ((c :: s1) ++ s2). constructor; auto.
  - inversion H; subst;
      [apply denotes_alt_l | apply denotes_alt_r]; auto.
  - inversion H; subst.
    change (c :: s1 ++ s2) with ((c :: s1) ++ s2). constructor; auto.
Qed.

Lemma deriv_complete (r : regex) (w : jsstring) :
  denotes r w -> forall c s, w = c :: s -> denotes (deriv c r) s.
Proof.
  induction 1; intros c' s' Hw; cbn.
  - discriminate.
  - injection Hw as <- <-. rewrite H. constructor.
  - destruct s1 as [|x s1]; cbn in Hw.
    + subst s2.
      rewrite (nullable_sound _ _ H eq_refl).
      apply denotes_alt_r. now apply IHdenotes2.
    + injection Hw as <- <-.
      specialize (IHdenotes1 _ _ eq_refl).
      destruct (nullable r1);
        [apply denotes_alt_l|]; constructor; auto.
  - apply denotes_alt_l. auto.
  - apply denotes_alt_r. auto.
  - discriminate.
  - destruct s1 as [|x s1]; cbn in Hw.
    + now apply IHdenotes2.
    + injection Hw as <- <-. constructor; auto.
Qed.

Lemma matches_whole_denotes (s : jsstring) :
  forall r, matches_whole r s = true <-> denotes r s.
Proof.
  induction s as [|c s IH]; intros r; cbn.
  - split; [apply nullable_complete|].
    intros H. now apply (nullable_sound _ _ H).
  - rewrite IH. split; [apply deriv_sound|].
    intros H. now apply (deriv_complete _ _ H).
Qed.

Lemma denotes_star_class (atoms : list class_atom) (s : jsstring) :
  denotes (RStar (RClass atoms)) s
  <-> forallb (fun c => existsb (atom_mem c) atoms) s = true.
Proof.
  split.
  - intros H. remember (RStar (RClass atoms)) as r eqn:Hr.
    induction H; try discriminate; [reflexivity|].
    injection Hr as ->. inversion H; subst. cbn.
    rewrite IHdenotes2 by reflexivity.
    match goal with Hm : existsb _ _ = true |- _ => now rewrite Hm end.
  - induction s as [|c s IH]; cbn; intros H; [constructor|].
    apply andb_true_iff in H as [Hc Hs].
    change (c :: s) with ([c] ++ s).
    constructor; [now constructor | auto].
Qed.

Lemma denotes_plus_class (atoms : list class_atom) (s : jsstring) :
  denotes (RPlus (RClass atoms)) s
  <-> s <> [] /\ forallb (fun c => existsb (atom_mem c) atoms) s = true.
Proof.
  unfold RPlus. split.
  - intros H. inversion H; subst.
    match goal with Hc : denotes (RClass _) _ |- _ => inversion Hc; subst end.
    split; [discriminate|]. cbn.
    match goal with Hm : existsb _ _ = true |- _ => rewrite Hm end.
    now apply denotes_star_class.
  - intros [Hne H]. destruct s as [|c s]; [congruence|].
    cbn in H. apply andb_true_iff in H as [Hc Hs].
    change (c :: s) with ([c] ++ s).
    constructor; [now constructor | now apply denotes_star_class].
Qed.

Lemma forallb_pointwise {A : Type} (p q : A -> bool) (l : list A) :
  (forall x, p x = q x) -> forallb p l = forallb q l.
Proof.
  intros H. induction l as [|x l IH]; [reflexivity|].
  cbn. now rewrite H, IH.
Qed.

Lemma phone_class_is_phone_char (c : N) :
  existsb (atom_mem c)
    [CDigit; CSpace; CChar 45; CChar 43; CChar 40; CChar 41; CChar 46]
  = phone_char c.
Proof.
  unfold phone_char. cbn [existsb atom_mem].
  rewrite orb_false_r, !orb_assoc. reflexivity.
Qed.

(** What the phone expression accepts: the non-empty strings made only of
    digits, whitespace, hyphens, pluses, parentheses and periods. *)
Lemma phone_re_accepts (s : jsstring) :
  matches_whole phone_re s
  = negb (jsstring_eqb s []) && forallb phone_char s.
Proof.
  assert (Hall : forallb (fun c => existsb (atom_mem c)
             [CDigit; CSpace; CChar 45; CChar 43; CChar 40; CChar 41;
              CChar 46]) s = forallb phone_char s).
  { apply forallb_pointwise. intros c. apply phone_class_is_phone_char. }
  destruct (matches_whole phone_re s) eqn:Hm.
  - apply matches_whole_denotes in Hm. unfold phone_re in Hm.
    apply denotes_plus_class in Hm as [Hne Hf].
    rewrite <- Hall, Hf, jsstring_eqb_nil. now destruct s.
  - destruct (negb (jsstring_eqb s []) && forallb phone_char s) eqn:Hr;
      [|reflexivity].
    apply andb_true_iff in Hr as [Hne Hf].
    assert (matches_whole phone_re s = true); [|congruence].
    apply matches_whole_denotes, denotes_plus_class.
    rewrite Hall. split; [|assumption].
    intros ->. discriminate.
Qed.

(** ** The monad *)

Lemma bind_ret_l {A B : Type} (a : A) (k : A -> M B) : bind (ret a) k = k a.
Proof. unfold bind, ret. now destruct (k a). Qed.

Lemma bind_normal {A B : Type} (a : A) (k : A -> M B) :
  bind ([], Normal a) k = k a.
Proof. apply bind_ret_l. Qed.

Lemma bind_responded {A B : Type} (t : list event) (r : response)
    (k : A -> M B) :
  bind (t, Responded r) k = (t, Responded r).
Proof. reflexivity. Qed.

Lemma bind_respond {A B : Type} (code : N) (body : payload) (k : A -> M B) :
  bind (respond code body) k = respond code body.
Proof. reflexivity. Qed.

Lemma filterM_pure {A : Type} (p : A -> M bool) (q : A -> bool)
    (l : list A) :
  (forall x, In x l -> p x = ret (q x)) ->
  filterM p l = ret (filter q l).
Proof.
  induction l as [|x l IH]; intros H; [reflexivity|].
  cbn [filterM filter].
  rewrite (H x (or_introl eq_refl)), bind_ret_l.
  rewrite IH by (intros y Hy; apply H; now right).
  rewrite bind_ret_l. now destruct (q x).
Qed.

Lemma for_of_first {A : Type} (body : A -> M unit) (q : A -> bool)
    (r : A -> response) (l : list A) :
  (forall x, In x l ->
     body x = if q x then ([], Responded (r x)) else ret tt) ->
  for_of l body
  = match find q l with
    | Some x => ([], Responded (r x))
    | None => ret tt
    end.
Proof.
  induction l as [|x l IH]; intros H; [reflexivity|].
  cbn [for_of find]. rewrite (H x (or_introl eq_refl)).
  destruct (q x); [reflexivity|].
  rewrite bind_ret_l. apply IH. intros y Hy. apply H. now right.
Qed.

(** ** The stages of the handler on well-typed bodies *)

Lemma prop_name b : prop b (lit "name") = name b.
Proof. reflexivity. Qed.
Lemma prop_phone b : prop b (lit "phone") = phone b.
Proof. reflexivity. Qed.
Lemma prop_caseType b : prop b (lit "caseType") = caseType b.
Proof. reflexivity. Qed.
Lemma prop_email b : prop b (lit "email") = email b.
Proof. reflexivity. Qed.
Lemma prop_message b : prop b (lit "message") = message b.
Proof. reflexivity. Qed.

Lemma well_typed_fields (b : Body) :
  well_typed b = true ->
  stringy (name b) = true /\ stringy (phone b) = true
  /\ stringy (caseType b) = true /\ stringy (email b) = true
  /\ stringy (message b) = true.
Proof.
  unfold well_typed. rewrite !andb_true_iff. tauto.
Qed.

Lemma is_missing_stringy (k : jsstring) (v : value) :
  stringy v = true -> is_missing (k, v) = ret (blank v).
Proof.
  destruct v as [| |s|t o]; cbn; try reflexivity; [|discriminate].
  intros _. unfold is_missing; cbn. unfold bind, ret; cbn.
  now rewrite js_trim_blank.
Qed.

Lemma missing_fields_typed (b : Body) :
  stringy (name b) = true -> stringy (phone b) = true ->
  stringy (caseType b) = true ->
  missing_fields b = ret (missing_spec b).
Proof.
  intros Hn Hp Hc. unfold missing_fields.
  rewrite (filterM_pure is_missing (fun e => blank (snd e))).
  - rewrite bind_ret_l. unfold missing_spec, required_entries.
    cbn [filter snd]. rewrite prop_name, prop_phone, prop_caseType.
    destruct (blank (name b)), (blank (phone b)), (blank (caseType b));
      reflexivity.
  - intros [k v] Hin. cbn [snd]. apply is_missing_stringy.
    unfold required_entries in Hin. cbn in Hin.
    destruct Hin as [H|[H|[H|[]]]]; injection H as <- <-; assumption.
Qed.

Lemma missing_spec_nil (b : Body) :
  missing_spec b = [] <->
  blank (name b) = false /\ blank (phone b) = false
  /\ blank (caseType b) = false.
Proof.
  unfold missing_spec. cbn [filter].
  rewrite prop_name, prop_phone, prop_caseType.
  destruct (blank (name b)), (blank (phone b)), (blank (caseType b));
    split; try discriminate; try tauto; intros (? & ? & ?); discriminate.
Qed.

Lemma check_limit_typed (b : Body) (f : jsstring) (m : N) :
  stringy (prop b f) = true ->
  check_limit (Some b) (f, m)
  = if exceeds (prop b f) m
    then ([], Responded (too_long_response f m))
    else ret tt.
Proof.
  intros Hs. unfold check_limit, member. cbn [fst snd].
  rewrite bind_ret_l.
  destruct (prop b f) as [| |s|t o] eqn:Hv; cbn [truthy exceeds].
  - now rewrite bind_ret_l.
  - now rewrite bind_ret_l.
  - rewrite jsstring_eqb_nil. destruct s as [|c s]; cbn [negb].
    + rewrite bind_ret_l. cbn. now destruct m.
    + rewrite !bind_ret_l. cbn [ToString]. rewrite !bind_ret_l.
      now destruct (m <? js_length (c :: s)).
  - discriminate.
Qed.

Lemma limits_typed (b : Body) :
  well_typed b = true ->
  forall e, In e limits -> stringy (prop b (fst e)) = true.
Proof.
  intros Hb e He. apply well_typed_fields in Hb as (? & ? & ? & ? & ?).
  unfold limits in He. cbn in He.
  destruct He as [<-|[<-|[<-|[<-|[<-|[]]]]]]; cbn [fst];
    rewrite ?prop_name, ?prop_phone, ?prop_caseType, ?prop_email,
      ?prop_message; assumption.
Qed.

Lemma length_check_typed (b : Body) :
  well_typed b = true ->
  for_of limits (check_limit (Some b))
  = match first_too_long b with
    | Some e => ([], Responded (too_long_response (fst e) (snd e)))
    | None => ret tt
    end.
Proof.
  intros Hb. unfold first_too_long.
  apply (for_of_first (check_limit (Some b))
           (fun e => exceeds (prop b (fst e)) (snd e))
           (fun e => too_long_response (fst e) (snd e))).
  intros [f m] He. cbn [fst snd]. apply check_limit_typed.
  apply (limits_typed b Hb (f, m) He).
Qed.

Lemma blank_false_string (v : value) :
  stringy v = true -> blank v = false ->
  exists s, v = VString s /\ forallb is_js_space s = false.
Proof.
  destruct v as [| |s|t o]; cbn; try discriminate. eauto.
Qed.

(** The presence check looks at the required fields only. *)
Lemma validate_missing (req_body : option Body) :
  required_typed (body_or_empty req_body) = true ->
  missing_spec (body_or_empty req_body) <> [] ->
  validate req_body
  = ([], Responded (missing_response
                      (missing_spec (body_or_empty req_body)))).
Proof.
  destruct req_body as [b|]; [|reflexivity].
  cbn [body_or_empty]. unfold required_typed.
  rewrite !andb_true_iff. intros [[Hn Hp] Hc] Hne.
  unfold validate. cbn [body_or_empty].
  rewrite (missing_fields_typed b Hn Hp Hc), bind_ret_l.
  now destruct (missing_spec b).
Qed.

(** The three checks on a well-typed body, as one decision. *)
Lemma validate_typed (req_body : option Body) :
  well_typed (body_or_empty req_body) = true ->
  validate req_body
  = match missing_spec (body_or_empty req_body) with
    | _ :: _ =>
        ([], Responded (missing_response
                          (missing_spec (body_or_empty req_body))))
    | [] =>
        match first_too_long (body_or_empty req_body) with
        | Some e => ([], Responded (too_long_response (fst e) (snd e)))
        | None =>
            if forallb phone_char (text_of (phone (body_or_empty req_body)))
            then ([], Normal tt)
            else ([], Responded invalid_phone_response)
        end
    end.
Proof.
  destruct req_body as [b|]; [|reflexivity].
  cbn [body_or_empty]. intros Hb.
  pose proof (well_typed_fields b Hb) as (Hn & Hp & Hc & _ & _).
  unfold validate. cbn [body_or_empty].
  rewrite (missing_fields_typed b Hn Hp Hc), bind_ret_l.
  destruct (missing_spec b) as [|k ks] eqn:Hm; [|reflexivity].
  cbn [array_length List.length N.of_nat N.eqb negb].
  rewrite bind_ret_l, (length_check_typed b Hb).
  destruct (first_too_long b) as [e|]; [reflexivity|].
  rewrite bind_ret_l.
  apply missing_spec_nil in Hm as (_ & Hbp & _).
  destruct (blank_false_string _ Hp Hbp) as (p & -> & Hsp).
  unfold regex_test. cbn [ToString text_of].
  rewrite bind_ret_l, bind_ret_l, phone_re_accepts, jsstring_eqb_nil.
  destruct p as [|c p]; [discriminate|]. cbn [negb andb].
  now destruct (forallb phone_char (c :: p)).
Qed.

Lemma subject_template_layout (isHe : bool) (a c : jsstring) :
  subject_template isHe a c
  = subject_layout (if isHe then hebrew else english) a c.
Proof. now destruct isHe. Qed.

Lemma html_template_layout (isHe : bool) (a p c e m : jsstring) :
  html_template isHe a p c e m
  = html_layout (if isHe then hebrew else english) a p c e m.
Proof.
  unfold html_template, html_layout, email_row, table_row.
  destruct isHe, (jsstring_eqb e []);
    cbn [List.concat text_direction heading label_name label_phone
         label_case_type label_email label_message hebrew english];
    rewrite <- ?app_assoc, ?app_nil_r; reflexivity.
Qed.

Lemma safe_text_absent (v : value) :
  truthy v = false -> stringy v = true -> safe_text v = [].
Proof.
  destruct v as [| |s|t o]; cbn; try reflexivity; try discriminate.
  rewrite jsstring_eqb_nil. now destruct s.
Qed.

(** Rendering succeeds on a body whose required fields are strings and
    whose optional fields are well typed. *)
Lemma render_typed (b : Body) (n p c : jsstring) :
  name b = VString n -> phone b = VString p -> caseType b = VString c ->
  stringy (email b) = true -> stringy (message b) = true ->
  render b = ([], Normal (expected_subject b, expected_html b)).
Proof.
  intros Hn Hp Hc He Hm.
  unfold render, expected_subject, expected_html, labels_of.
  rewrite Hn, Hp, Hc. cbn [call_trim].
  rewrite !bind_ret_l, !esc_string, !bind_normal.
  assert (Hemail :
    (if truthy (email b)
     then t <- call_trim (email b) ;; esc (VString t)
     else ret []) = ([], Normal (safe_text (email b)))).
  { destruct (truthy (email b)) eqn:Ht.
    - destruct (email b) as [| |e|t o]; try discriminate.
      cbn [call_trim]. now rewrite bind_ret_l, esc_string.
    - now rewrite safe_text_absent. }
  rewrite Hemail, bind_normal.
  assert (Hmessage :
    call_trim (nullish_coalesce (message b) (VString []))
    = ([], Normal (js_trim (text_of (message b))))).
  { destruct (message b) as [| |m|t o]; try discriminate; reflexivity. }
  rewrite Hmessage, bind_normal, esc_string, !bind_normal, bind_ret_l.
  rewrite subject_template_layout, html_template_layout.
  reflexivity.
Qed.

(** ** Validation performs no effect *)

Lemma silent_bind {A B : Type} (m : M A) (k : A -> M B) :
  silent m -> (forall a, silent (k a)) -> silent (bind m k).
Proof.
  unfold silent, bind. destruct m as [t [a|r|e]]; cbn; intros -> Hk;
    try reflexivity.
  specialize (Hk a). destruct (k a). cbn in *. now subst.
Qed.

Lemma silent_ToString (v : value) : silent (ToString v).
Proof. destruct v as [| |s|t [s|]]; reflexivity. Qed.

Lemma silent_filterM {A : Type} (p : A -> M bool) (l : list A) :
  (forall x, silent (p x)) -> silent (filterM p l).
Proof.
  intros Hp. induction l as [|x l IH]; [reflexivity|].
  cbn [filterM]. apply silent_bind; [apply Hp|]. intros keep.
  apply silent_bind; [apply IH|]. reflexivity.
Qed.

Lemma silent_for_of {A : Type} (body : A -> M unit) (l : list A) :
  (forall x, silent (body x)) -> silent (for_of l body).
Proof.
  intros Hb. induction l as [|x l IH]; [reflexivity|].
  cbn [for_of]. apply silent_bind; [apply Hb | intros _; apply IH].
Qed.

Lemma silent_is_missing (e : jsstring * value) : silent (is_missing e).
Proof.
  unfold is_missing. destruct (is_nullish (snd e)); [reflexivity|].
  apply silent_bind; [apply silent_ToString | reflexivity].
Qed.

Lemma silent_member (req_body : option Body) (k : jsstring) :
  silent (member req_body k).
Proof. destruct req_body; reflexivity. Qed.

Lemma silent_check_limit (req_body : option Body) (e : jsstring * N) :
  silent (check_limit req_body e).
Proof.
  unfold check_limit. apply silent_bind; [apply silent_member|].
  intros v. apply silent_bind.
  - destruct (truthy v); [|reflexivity].
    apply silent_bind; [apply silent_member|]. intros v'.
    apply silent_bind; [apply silent_ToString | reflexivity].
  - intros [|]; reflexivity.
Qed.

Lemma silent_validate (req_body : option Body) : silent (validate req_body).
Proof.
  unfold validate. apply silent_bind.
  - unfold missing_fields. apply silent_bind; [|reflexivity].
    apply silent_filterM, silent_is_missing.
  - intros missing. apply silent_bind.
    + destruct (negb (array_length missing =? 0)); reflexivity.
    + intros _. apply silent_bind.
      * apply silent_for_of, silent_check_limit.
      * intros _. unfold regex_test. apply silent_bind.
        -- apply silent_bind; [apply silent_ToString | reflexivity].
        -- intros [|]; reflexivity.
Qed.

(** ** The handler *)

Section Handler.

Variable SMTP_USER : option jsstring.
Variable SMTP_PASS : option jsstring.
Variable sendMail_result : transport_options -> mail -> option jsstring.

(** A response sent by a check ends the handler. *)
Lemma handler_rejected (req_body : option Body) (t : list event)
    (r : response) :
  validate req_body = (t, Responded r) ->
  handler SMTP_USER SMTP_PASS sendMail_result req_body = (t, Responded r).
Proof. intros H. unfold handler. now rewrite H. Qed.

Lemma handler_not_configured (req_body : option Body) (t : list event) :
  validate req_body = (t, Normal tt) ->
  transporter SMTP_USER SMTP_PASS = None ->
  handler SMTP_USER SMTP_PASS sendMail_result req_body
  = ([ConsoleWarn (lit "SMTP_PASS not configured " ++ [EN_DASH]
                     ++ lit " email skipped")],
     Responded not_configured_response).
Proof.
  intros H Ht. pose proof (silent_validate req_body) as Hs.
  unfold silent in Hs. rewrite H in Hs. cbn in Hs. subst t.
  unfold handler. rewrite H, bind_normal, Ht. reflexivity.
Qed.

Lemma handler_delivers (b : Body) (t : transport_options) :
  well_typed b = true ->
  missing_spec b = [] ->
  first_too_long b = None ->
  forallb phone_char (text_of (phone b)) = true ->
  transporter SMTP_USER SMTP_PASS = Some t ->
  handler SMTP_USER SMTP_PASS sendMail_result (Some b)
  = match sendMail_result t (expected_mail SMTP_USER b) with
    | None =>
        ([SendMail t (expected_mail SMTP_USER b)],
         Responded success_response)
    | Some msg =>
        ([SendMail t (expected_mail SMTP_USER b);
          ConsoleError (lit "Email send error:") msg],
         Responded send_failed_response)
    end.
Proof.
  intros Hb Hm Hl Hp Ht.
  pose proof (validate_typed (Some b) Hb) as Hv.
  cbn [body_or_empty] in Hv. rewrite Hm, Hl, Hp in Hv.
  pose proof (well_typed_fields b Hb) as (Hsn & Hsp & Hsc & Hse & Hsm).
  apply missing_spec_nil in Hm as (Hbn & Hbp & Hbc).
  destruct (blank_false_string _ Hsn Hbn) as (n & Hn & _).
  destruct (blank_false_string _ Hsp Hbp) as (p & Hph & _).
  destruct (blank_false_string _ Hsc Hbc) as (c & Hc & _).
  unfold handler. rewrite Hv, bind_normal, Ht.
  cbn [body_or_empty].
  rewrite (render_typed b n p c Hn Hph Hc Hse Hsm), bind_normal.
  cbn [fst snd]. fold (expected_mail SMTP_USER b).
  unfold sendMail, emit, try_catch, bind.
  now destruct (sendMail_result t (expected_mail SMTP_USER b)).
Qed.

End Handler.

(** ** Valid submissions pass the three checks *)

Lemma required_ok_inv (v : value) (m : N) :
  required_ok v m = true ->
  stringy v = true /\ blank v = false /\ exceeds v m = false.
Proof.
  destruct v as [| |s|t o]; cbn; try discriminate.
  rewrite andb_true_iff, negb_true_iff, N.leb_le, N.ltb_ge. tauto.
Qed.

Lemma optional_ok_inv (v : value) (m : N) :
  optional_ok v m = true -> stringy v = true /\ exceeds v m = false.
Proof.
  destruct v as [| |s|t o]; cbn; try discriminate; try tauto.
  rewrite N.leb_le, N.ltb_ge. tauto.
Qed.

Lemma valid_submission_checks (b : Body) :
  valid_submission b = true ->
  well_typed b = true /\ missing_spec b = [] /\ first_too_long b = None
  /\ forallb phone_char (text_of (phone b)) = true.
Proof.
  unfold valid_submission. rewrite !andb_true_iff.
  intros (((((Hn & Hp) & Hpc) & Hc) & He) & Hm).
  apply required_ok_inv in Hn as (Hn1 & Hn2 & Hn3).
  apply required_ok_inv in Hp as (Hp1 & Hp2 & Hp3).
  apply required_ok_inv in Hc as (Hc1 & Hc2 & Hc3).
  apply optional_ok_inv in He as (He1 & He3).
  apply optional_ok_inv in Hm as (Hm1 & Hm3).
  repeat split.
  - unfold well_typed. now rewrite Hn1, Hp1, Hc1, He1, Hm1.
  - now apply missing_spec_nil.
  - unfold first_too_long, limits. cbn [find fst snd].
    rewrite prop_name, prop_phone, prop_caseType, prop_email, prop_message.
    now rewrite Hn3, Hp3, Hc3, He3, Hm3.
  - assumption.
Qed.

Lemma required_ok_intro (v : value) (m : N) :
  stringy v = true -> blank v = false -> exceeds v m = false ->
  required_ok v m = true.
Proof.
  destruct v as [| |s|t o]; cbn; try discriminate.
  intros _ -> H. apply N.ltb_ge in H. now apply N.leb_le.
Qed.

Lemma optional_ok_intro (v : value) (m : N) :
  stringy v = true -> exceeds v m = false -> optional_ok v m = true.
Proof.
  destruct v as [| |s|t o]; cbn; try discriminate; try reflexivity.
  intros _ H. apply N.ltb_ge in H. now apply N.leb_le.
Qed.

(** The valid submissions of the data model are the well-typed bodies
    that the three checks of the handler let through. *)
Lemma valid_submission_iff (b : Body) :
  valid_submission b = true
  <-> well_typed b = true /\ validate (Some b) = ([], Normal tt).
Proof.
  split.
  - intros Hvalid.
    apply valid_submission_checks in Hvalid as (Hb & Hm & Hl & Hp).
    split; [exact Hb|].
    rewrite (validate_typed (Some b) Hb). cbn [body_or_empty].
    now rewrite Hm, Hl, Hp.
  - intros [Hb Hv].
    rewrite (validate_typed (Some b) Hb) in Hv. cbn [body_or_empty] in Hv.
    destruct (missing_spec b) eqn:Hm; [|discriminate].
    destruct (first_too_long b) eqn:Hl; [discriminate|].
    destruct (forallb phone_char (text_of (phone b))) eqn:Hp;
      [|discriminate].
    apply missing_spec_nil in Hm as (Hn & Hph & Hc).
    pose proof (well_typed_fields b Hb) as (Hsn & Hsp & Hsc & Hse & Hsm).
    unfold first_too_long in Hl.
    assert (Hlim : forall f m, In (f, m) limits ->
                               exceeds (prop b f) m = false)
      by (intros f m Hin; exact (find_none _ _ Hl (f, m) Hin)).
    unfold valid_submission.
    rewrite (required_ok_intro _ 200 Hsn Hn),
            (required_ok_intro _ 30 Hsp Hph),
            (required_ok_intro _ 100 Hsc Hc),
            (optional_ok_intro _ 254 Hse),
            (optional_ok_intro _ 5000 Hsm), Hp;
      try reflexivity.
    + rewrite <- prop_message. apply Hlim. cbn. tauto.
    + rewrite <- prop_email. apply Hlim. cbn. tauto.
    + rewrite <- prop_caseType. apply Hlim. cbn. tauto.
    + rewrite <- prop_phone. apply Hlim. cbn. tauto.
    + rewrite <- prop_name. apply Hlim. cbn. tauto.
Qed.

(** ** Occurrences of a text in the email body *)

Lemma starts_with_app (n rest : jsstring) : starts_with n (n ++ rest) = true.
Proof.
  induction n as [|a n IH]; [reflexivity|].
  cbn. now rewrite N.eqb_refl, IH.
Qed.

Lemma starts_with_app_l (n s post : jsstring) :
  starts_with n s = true -> starts_with n (s ++ post) = true.
Proof.
  revert s. induction n as [|a n IH]; intros s H; [reflexivity|].
  destruct s as [|x s]; [discriminate|]. cbn in *.
  apply andb_true_iff in H as [-> H]. now rewrite IH.
Qed.

Lemma includes_app_l (n s post : jsstring) :
  includes n s = true -> includes n (s ++ post) = true.
Proof.
  induction s as [|x s IH]; cbn [includes app]; intros H.
  - rewrite orb_false_r in H. destruct n; [|discriminate].
    now destruct post.
  - apply orb_true_iff in H as [H|H].
    + change (x :: s ++ post) with ((x :: s) ++ post).
      now rewrite (starts_with_app_l _ _ post H).
    + rewrite (IH H). apply orb_true_r.
Qed.

Lemma includes_app_r (n pre s : jsstring) :
  includes n s = true -> includes n (pre ++ s) = true.
Proof.
  intros H. induction pre as [|x pre IH]; [exact H|].
  cbn [includes app]. rewrite IH. apply orb_true_r.
Qed.

Lemma includes_self (n : jsstring) : includes n n = true.
Proof.
  destruct n as [|a n]; [reflexivity|].
  cbn [includes]. rewrite <- (app_nil_r (a :: n)) at 2.
  now rewrite starts_with_app.
Qed.

(** A text without [<] opens no tag. *)
Lemma only_template_tags_plain (s : jsstring) :
  (forall x, In x s -> x <> LT) -> only_template_tags s = true.
Proof.
  induction s as [|c s IH]; intros H; [reflexivity|].
  cbn [only_template_tags].
  destruct (N.eqb_spec c LT) as [->|_].
  - exfalso. apply (H LT); [now left | reflexivity].
  - apply IH. intros x Hx. apply H. now right.
Qed.

Lemma only_template_tags_app (a b : jsstring) :
  only_template_tags a = true -> only_template_tags b = true ->
  only_template_tags (a ++ b) = true.
Proof.
  intros Ha Hb. induction a as [|c a IH]; [exact Hb|].
  cbn [only_template_tags app] in *.
  apply andb_true_iff in Ha as [Hc Ha]. rewrite (IH Ha), andb_true_r.
  destruct (c =? LT); [|reflexivity].
  destruct a as [|d a]; [discriminate | exact Hc].
Qed.

(** Line breaks are the only tags in an escaped text whose newlines were
    replaced. *)
Lemma only_template_tags_nl2br (s : jsstring) :
  (forall x, In x s -> x <> LT) -> only_template_tags (nl2br s) = true.
Proof.
  induction s as [|c s IH]; intros H; [reflexivity|].
  unfold nl2br. cbn [flat_map]. apply only_template_tags_app.
  - destruct (c =? LF); [reflexivity|].
    apply only_template_tags_plain. intros x [<-|[]].
    apply H. now left.
  - apply IH. intros x Hx. apply H. now right.
Qed.

(** No tag of another name occurs where only template tags do. *)
Lemma only_template_tags_excludes (d : N) (rest s : jsstring) :
  existsb (N.eqb d) [100; 104; 116; 98; 47] = false ->
  only_template_tags s = true ->
  includes (LT :: d :: rest) s = false.
Proof.
  intros Hd. induction s as [|c s IH]; intros Hs; [reflexivity|].
  cbn [only_template_tags] in Hs. apply andb_true_iff in Hs as [Hc Hs].
  cbn [includes]. rewrite (IH Hs), orb_false_r.
  cbn [starts_with]. destruct (N.eqb_spec LT c) as [<-|]; [|reflexivity].
  rewrite N.eqb_refl in Hc. destruct s as [|x s]; [reflexivity|].
  cbn [starts_with andb]. destruct (N.eqb_spec d x) as [->|]; [|reflexivity].
  congruence.
Qed.

Ltac tags_ok :=
  repeat match goal with
         | |- only_template_tags (_ ++ _) = true =>
             apply only_template_tags_app
         end;
  first [ reflexivity | assumption ].

(** The body of the email holds the tags of the template, the line
    breaks of the message, and no other tag. *)
Lemma html_layout_tags (v : value) (a p c e m : jsstring) :
  (forall x, In x a -> x <> LT) ->
  (forall x, In x p -> x <> LT) ->
  (forall x, In x c -> x <> LT) ->
  (forall x, In x e -> x <> LT) ->
  only_template_tags m = true ->
  only_template_tags (html_layout (labels_of v) a p c e m) = true.
Proof.
  intros Ha Hp Hc He Hm.
  apply only_template_tags_plain in Ha, Hp, Hc, He.
  unfold html_layout, table_row, labels_of.
  destruct (strict_eq_string v (lit "he")), (jsstring_eqb e []); tags_ok.
Qed.

(** Looks for the piece of a concatenation that is known to hold the
    text. *)
Ltac find_piece H :=
  first [ exact H
        | apply includes_app_l; find_piece H
        | apply includes_app_r; find_piece H ].

Lemma html_layout_shows_name (l : labels) (n a p c e m : jsstring) :
  includes n a = true ->
  includes n (html_layout l a p c e m) = true.
Proof.
  intros H. unfold html_layout, table_row. find_piece H.
Qed.

Lemma html_layout_direction (l : labels) (a p c e m : jsstring) :
  includes (lit "dir=" ++ quoted (text_direction l))
    (html_layout l a p c e m) = true.
Proof.
  unfold html_layout.
  change (lit "        <div dir=") with (lit "        <div " ++ lit "dir=").
  rewrite <- !app_assoc.
  apply includes_app_r, includes_app_r.
  rewrite app_assoc. apply includes_app_l, includes_self.
Qed.

(** A valid submission reaches the transport with its email. *)
Lemma handler_sends_expected
    (SMTP_USER : option jsstring) (c : N) (p : jsstring)
    (sendMail_result : transport_options -> mail -> option jsstring)
    (b : Body) :
  valid_submission b = true ->
  exists trace r,
    handler SMTP_USER (Some (c :: p)) sendMail_result (Some b)
    = (SendMail {| service := lit "gmail";
                   auth_user := sender_account SMTP_USER;
                   auth_pass := c :: p |}
                (expected_mail SMTP_USER b) :: trace,
       Responded r).
Proof.
  intros Hvalid.
  apply valid_submission_checks in Hvalid as (Hb & Hm & Hl & Hp).
  rewrite (handler_delivers SMTP_USER (Some (c :: p)) sendMail_result b _
             Hb Hm Hl Hp eq_refl).
  destruct (sendMail_result _ (expected_mail SMTP_USER b));
    eexists; eexists; reflexivity.
Qed.

Lemma expected_html_tags (b : Body) :
  only_template_tags (expected_html b) = true.
Proof.
  unfold expected_html, safe_text.
  apply html_layout_tags;
    try (intros x Hx; now apply escape_html_no_markup in Hx).
  apply only_template_tags_nl2br.
  intros x Hx. now apply escape_html_no_markup in Hx.
Qed.

Lemma strict_eq_string_false (v : value) (s : jsstring) :
  v <> VString s -> strict_eq_string v s = false.
Proof.
  destruct v as [| |s'|t o]; cbn; try reflexivity. intros Hne.
  destruct (jsstring_eqb s' s) eqn:E; [|reflexivity].
  apply jsstring_eqb_eq in E. congruence.
Qed.

(** ** The limiter in front of the handler *)

(** A request the limiter refuses gets the configured message with
    status 429, and the handler does not run. *)
Lemma route_refused
    (SMTP_USER SMTP_PASS : option jsstring)
    (sendMail_result : transport_options -> mail -> option jsstring)
    (req_body : option Body) :
  route SMTP_USER SMTP_PASS sendMail_result false req_body
  = ([], Responded
           (failure 429 (lit "Too many requests, please try again later"))).
Proof. reflexivity. Qed.

Lemma route_allowed
    (SMTP_USER SMTP_PASS : option jsstring)
    (sendMail_result : transport_options -> mail -> option jsstring)
    (req_body : option Body) :
  route SMTP_USER SMTP_PASS sendMail_result true req_body
  = handler SMTP_USER SMTP_PASS sendMail_result req_body.
Proof. reflexivity. Qed.

(** ** Bodies outside the data model *)

(** The checks convert a field with [String], so a phone given as the
    number [123] passes them; rendering then calls [trim] on it, which
    only a string has. The handler throws and sends no response. This is
    why the properties of the email below are stated for bodies typed as
    in the data model. *)
Lemma numeric_phone_throws
    (SMTP_USER : option jsstring) (c : N) (p : jsstring)
    (sendMail_result : transport_options -> mail -> option jsstring) :
  validate (Some example_numeric_phone) = ([], Normal tt)
  /\ handler SMTP_USER (Some (c :: p)) sendMail_result
       (Some example_numeric_phone)
     = ([], Thrown (TypeError (lit "trim is not a function"))).
Proof. split; reflexivity. Qed.

(* ===================================================================== *)
(** * The properties stated by the specification                       *)
(* ===================================================================== *)

(** C2. When name, phone or caseType is absent, [null] or blank, the
    handler answers 400 with [fields] listing exactly the missing or blank
    ones among name, phone and caseType, and hands no mail to the
    transport; it performs no effect at all. The required fields are typed
    as in the data model: each is a string, [null] or absent. *)
Theorem missing_fields_rejected
    (SMTP_USER SMTP_PASS : option jsstring)
    (sendMail_result : transport_options -> mail -> option jsstring)
    (req_body : option Body) :
  required_typed (body_or_empty req_body) = true ->
  blank (name (body_or_empty req_body)) = true
  \/ blank (phone (body_or_empty req_body)) = true
  \/ blank (caseType (body_or_empty req_body)) = true ->
  exists names,
    handler SMTP_USER SMTP_PASS sendMail_result req_body
    = ([], Responded
             {| status := 400;
                json := {| ok := false;
                           error := Some (lit "Missing required fields");
                           fields := Some names |} |})
    /\ names = filter (fun k => blank (prop (body_or_empty req_body) k))
                 [lit "name"; lit "phone"; lit "caseType"]
    /\ (forall k, In k names <->
                  In k [lit "name"; lit "phone"; lit "caseType"]
                  /\ blank (prop (body_or_empty req_body) k) = true)
    /\ no_send (fst (handler SMTP_USER SMTP_PASS sendMail_result req_body)).
Proof.
  intros Hb Hblank.
  assert (Hne : missing_spec (body_or_empty req_body) <> []).
  { intros Hnil. apply missing_spec_nil in Hnil as (Hn & Hp & Hc).
    destruct Hblank as [H|[H|H]]; congruence. }
  assert (Hh : handler SMTP_USER SMTP_PASS sendMail_result req_body
               = ([], Responded (missing_response
                                   (missing_spec (body_or_empty req_body))))).
  { apply handler_rejected. now apply validate_missing. }
  exists (missing_spec (body_or_empty req_body)).
  split; [exact Hh|]. split; [reflexivity|]. split.
  - intros k. unfold missing_spec. apply filter_In.
  - rewrite Hh. intros t m [].
Qed.

Lemma missing_fields_rejected_witness :
  exists names,
    handler None (Some (lit "app-password")) always_delivers
      (Some example_missing)
    = ([], Responded
             {| status := 400;
                json := {| ok := false;
                           error := Some (lit "Missing required fields");
                           fields := Some names |} |})
    /\ names = [lit "name"; lit "caseType"].
Proof.
  destruct (missing_fields_rejected None (Some (lit "app-password"))
              always_delivers (Some example_missing))
    as (names & Hh & Hn & _).
  - reflexivity.
  - left. reflexivity.
  - exists names. split; [exact Hh | exact Hn].
Defined.

(** C4. When a submission passes the presence, length and phone-format
    checks and SMTP_PASS is absent (or empty), no transport exists and the
    handler answers 503 with the error "Email not configured"; it only
    writes a console warning and hands no mail to the transport. This
    holds for every body, whatever the types of its fields. *)
Theorem unconfigured_transport_gives_503
    (SMTP_USER SMTP_PASS : option jsstring)
    (sendMail_result : transport_options -> mail -> option jsstring)
    (req_body : option Body) (t : list event) :
  validate req_body = (t, Normal tt) ->
  SMTP_PASS = None \/ SMTP_PASS = Some [] ->
  transporter SMTP_USER SMTP_PASS = None
  /\ handler SMTP_USER SMTP_PASS sendMail_result req_body
     = ([ConsoleWarn (lit "SMTP_PASS not configured " ++ [EN_DASH]
                        ++ lit " email skipped")],
        Responded
          {| status := 503;
             json := {| ok := false;
                        error := Some (lit "Email not configured");
                        fields := None |} |})
  /\ no_send (fst (handler SMTP_USER SMTP_PASS sendMail_result req_body)).
Proof.
  intros Hv Hpass.
  assert (Ht : transporter SMTP_USER SMTP_PASS = None)
    by (destruct Hpass as [->| ->]; reflexivity).
  pose proof (handler_not_configured SMTP_USER SMTP_PASS sendMail_result
                req_body t Hv Ht) as Hh.
  split; [exact Ht|]. split; [exact Hh|].
  rewrite Hh. intros t' m [H|[]]. discriminate.
Qed.

Lemma unconfigured_transport_gives_503_witness :
  validate (Some example_valid) = ([], Normal tt)
  /\ status_of_handler_result
       (handler None None always_delivers (Some example_valid)) = Some 503.
Proof.
  split; [reflexivity|].
  destruct (unconfigured_transport_gives_503 None None always_delivers
              (Some example_valid) [] eq_refl (or_introl eq_refl))
    as (_ & Hh & _).
  rewrite Hh. reflexivity.
Defined.

(** C5. For a valid submission with the transport configured, the mail
    is handed to the transport once. When the send fails the handler logs
    the cause on the console and answers 500 with the fixed message
    "Failed to send email", whatever the cause; when it succeeds the
    handler answers 200 with the body [{ok: true}]. *)
Theorem delivery_outcome
    (SMTP_USER : option jsstring) (c : N) (p : jsstring)
    (sendMail_result : transport_options -> mail -> option jsstring)
    (b : Body) :
  valid_submission b = true ->
  exists t m,
    transporter SMTP_USER (Some (c :: p)) = Some t
    /\ (forall cause,
          sendMail_result t m = Some cause ->
          handler SMTP_USER (Some (c :: p)) sendMail_result (Some b)
          = ([SendMail t m; ConsoleError (lit "Email send error:") cause],
             Responded
               {| status := 500;
                  json := {| ok := false;
                             error := Some (lit "Failed to send email");
                             fields := None |} |}))
    /\ (sendMail_result t m = None ->
        handler SMTP_USER (Some (c :: p)) sendMail_result (Some b)
        = ([SendMail t m],
           Responded
             {| status := 200;
                json := {| ok := true; error := None; fields := None |} |})).
Proof.
  intros Hvalid.
  apply valid_submission_checks in Hvalid as (Hb & Hm & Hl & Hp).
  eexists. exists (expected_mail SMTP_USER b).
  split; [reflexivity|].
  split; [intros cause Hr | intros Hr];
    rewrite (handler_delivers SMTP_USER (Some (c :: p)) sendMail_result b _
               Hb Hm Hl Hp eq_refl);
    now rewrite Hr.
Qed.

Lemma delivery_outcome_witness :
  status_of_handler_result
    (handler None (Some (lit "app-password")) always_delivers
       (Some example_valid)) = Some 200
  /\ status_of_handler_result
       (handler None (Some (lit "app-password")) always_fails
          (Some example_valid)) = Some 500.
Proof.
  split.
  - destruct (delivery_outcome None 97 (lit "pp-password") always_delivers
                example_valid eq_refl) as (t & m & _ & _ & Hok).
    exact (f_equal status_of_handler_result (Hok eq_refl)).
  - destruct (delivery_outcome None 97 (lit "pp-password") always_fails
                example_valid eq_refl) as (t & m & _ & Hfail & _).
    exact (f_equal status_of_handler_result (Hfail _ eq_refl)).
Defined.

(** C6, as stated, fails when two fields are too long: the name of
    201 characters is reported and the message of 5001 characters, which
    exceeds its own limit of 5000, is not named in the response. *)
Lemma overlong_message_not_named :
  well_typed example_too_long = true
  /\ missing_spec example_too_long = []
  /\ In (lit "message", 5000) limits
  /\ exceeds (prop example_too_long (lit "message")) 5000 = true
  /\ handler None (Some (lit "app-password")) always_delivers
       (Some example_too_long)
     = ([], Responded
              (failure 400 (lit "name exceeds maximum length of 200")))
  /\ includes (lit "message")
       (lit "name exceeds maximum length of 200") = false
  /\ handler None (Some (lit "app-password")) always_delivers
       (Some example_too_long)
     <> ([], Responded
               (failure 400 (lit "message exceeds maximum length of 5000"))).
Proof.
  repeat (split; [reflexivity|]).
  split; [cbn; tauto|].
  repeat (split; [reflexivity|]).
  discriminate.
Qed.

(** C6, amended. When a submission passes the presence check and some
    field is longer than its maximum (name 200, phone 30, caseType 100,
    email 254, message 5000), the handler answers 400 with an error that
    names the first field that is too long, in the order name, phone,
    caseType, email, message, and the limit of that field; this is the
    field in question whenever it is the only one that is too long. *)
Theorem overlong_field_rejected
    (SMTP_USER SMTP_PASS : option jsstring)
    (sendMail_result : transport_options -> mail -> option jsstring)
    (b : Body) (f : jsstring) (m : N) :
  well_typed b = true ->
  missing_spec b = [] ->
  In (f, m) limits ->
  exceeds (prop b f) m = true ->
  limits = [ (lit "name", 200); (lit "phone", 30); (lit "caseType", 100);
             (lit "email", 254); (lit "message", 5000) ]
  /\ map (fun e => too_long_response (fst e) (snd e)) limits
     = [ failure 400 (lit "name exceeds maximum length of 200");
         failure 400 (lit "phone exceeds maximum length of 30");
         failure 400 (lit "caseType exceeds maximum length of 100");
         failure 400 (lit "email exceeds maximum length of 254");
         failure 400 (lit "message exceeds maximum length of 5000") ]
  /\ exists f' m',
       In (f', m') limits
       /\ exceeds (prop b f') m' = true
       /\ first_too_long b = Some (f', m')
       /\ handler SMTP_USER SMTP_PASS sendMail_result (Some b)
          = ([], Responded
                   {| status := 400;
                      json :=
                        {| ok := false;
                           error := Some (f' ++ lit " exceeds maximum length of "
                                             ++ number_to_string m');
                           fields := None |} |})
       /\ ((forall e, In e limits ->
                      exceeds (prop b (fst e)) (snd e) = true -> e = (f, m))
           -> (f', m') = (f, m)).
Proof.
  intros Hb Hm Hin Hex.
  split; [reflexivity|]. split; [reflexivity|].
  destruct (first_too_long b) as [[f' m']|] eqn:Hfirst.
  - pose proof Hfirst as Hfound. unfold first_too_long in Hfound.
    apply find_some in Hfound as [Hin' Hex']. cbn [fst snd] in Hex'.
    exists f', m'. repeat split; try assumption.
    + apply handler_rejected.
      rewrite (validate_typed (Some b) Hb). cbn [body_or_empty].
      now rewrite Hm, Hfirst.
    + intros Huniq. apply (Huniq (f', m') Hin' Hex').
  - unfold first_too_long in Hfirst.
    pose proof (find_none _ _ Hfirst (f, m) Hin) as Hno.
    cbn [fst snd] in Hno. congruence.
Qed.

Lemma overlong_field_rejected_witness :
  handler None (Some (lit "app-password")) always_delivers
    (Some example_too_long)
  = ([], Responded (failure 400 (lit "name exceeds maximum length of 200"))).
Proof.
  destruct (overlong_field_rejected None (Some (lit "app-password"))
              always_delivers example_too_long (lit "message") 5000)
    as (_ & _ & f' & m' & _ & _ & Hfirst & Hh & _).
  - reflexivity.
  - reflexivity.
  - cbn. tauto.
  - reflexivity.
  - rewrite Hh. injection Hfirst as <- <-. reflexivity.
Defined.

(** C7. When a submission passes the presence and length checks, its
    phone is a string, and the handler goes on (it ends with a status other
    than 400) exactly when every character of the phone is a digit,
    whitespace, a hyphen, a plus, a parenthesis or a period; otherwise it
    answers 400 "Invalid phone format". The phone "abc-123" fails the
    format check and "+1 (555) 123-4567" passes it. *)
Theorem phone_format_check
    (SMTP_USER SMTP_PASS : option jsstring)
    (sendMail_result : transport_options -> mail -> option jsstring)
    (b : Body) :
  well_typed b = true ->
  missing_spec b = [] ->
  first_too_long b = None ->
  exists p,
    phone b = VString p
    /\ regex_test phone_re (phone b) = ([], Normal (forallb phone_char p))
    /\ (forallb phone_char p = false ->
        handler SMTP_USER SMTP_PASS sendMail_result (Some b)
        = ([], Responded
                 {| status := 400;
                    json := {| ok := false;
                               error := Some (lit "Invalid phone format");
                               fields := None |} |}))
    /\ (forallb phone_char p = true ->
        exists trace r,
          handler SMTP_USER SMTP_PASS sendMail_result (Some b)
          = (trace, Responded r)
          /\ status r <> 400)
    /\ (forall c, phone_char c = true <->
          is_js_digit c = true \/ is_js_space c = true
          \/ c = 45 \/ c = 43 \/ c = 40 \/ c = 41 \/ c = 46)
    /\ regex_test phone_re (VString (lit "abc-123")) = ([], Normal false)
    /\ regex_test phone_re (VString (lit "+1 (555) 123-4567"))
       = ([], Normal true).
Proof.
  intros Hb Hm Hl.
  pose proof (well_typed_fields b Hb) as (_ & Hsp & _).
  pose proof Hm as Hnil. apply missing_spec_nil in Hnil as (_ & Hbp & _).
  destruct (blank_false_string _ Hsp Hbp) as (p & Hp & Hspace).
  pose proof (validate_typed (Some b) Hb) as Hv.
  cbn [body_or_empty] in Hv. rewrite Hm, Hl, Hp in Hv. cbn [text_of] in Hv.
  exists p. split; [exact Hp|]. split; [|split; [|split; [|split]]].
  - rewrite Hp. unfold regex_test. cbn [ToString].
    rewrite bind_ret_l, phone_re_accepts, jsstring_eqb_nil.
    destruct p; [discriminate | reflexivity].
  - intros Hbad. apply handler_rejected. now rewrite Hv, Hbad.
  - intros Hgood. rewrite Hgood in Hv.
    destruct (transporter SMTP_USER SMTP_PASS) as [t|] eqn:Ht.
    + rewrite (handler_delivers SMTP_USER SMTP_PASS sendMail_result b t
                 Hb Hm Hl) by (rewrite ?Hp; assumption).
      destruct (sendMail_result t (expected_mail SMTP_USER b));
        eexists; eexists; (split; [reflexivity | discriminate]).
    + rewrite (handler_not_configured SMTP_USER SMTP_PASS sendMail_result
                 (Some b) [] Hv Ht).
      eexists; eexists; (split; [reflexivity | discriminate]).
  - intros c. unfold phone_char.
    rewrite !orb_true_iff, !N.eqb_eq. tauto.
  - split; reflexivity.
Qed.

Lemma phone_format_check_witness :
  handler None (Some (lit "app-password")) always_delivers
    (Some example_bad_phone)
  = ([], Responded (failure 400 (lit "Invalid phone format")))
  /\ status_of_handler_result
       (handler None (Some (lit "app-password")) always_delivers
          (Some example_valid)) <> Some 400.
Proof.
  split.
  - destruct (phone_format_check None (Some (lit "app-password"))
                always_delivers example_bad_phone eq_refl eq_refl eq_refl)
      as (p & Hp & _ & Hbad & _).
    injection Hp as <-. exact (Hbad eq_refl).
  - destruct (phone_format_check None (Some (lit "app-password"))
                always_delivers example_valid eq_refl eq_refl eq_refl)
      as (p & Hp & _ & _ & Hgood & _).
    injection Hp as <-.
    destruct (Hgood eq_refl) as (trace & r & Hh & Hr).
    rewrite Hh. cbn. intros H. injection H as H. exact (Hr H).
Defined.

(** C9. The checks run in the order presence, length, phone format,
    transport, and the first that fails decides the response, whatever the
    later ones would say: missing fields give the missing-fields 400 even
    when a field is too long, the phone is malformed or no transport is
    configured; a field that is too long gives its 400 even when the phone
    is malformed; a malformed phone gives its 400 even when no transport is
    configured; and only then a missing transport gives 503. A submission
    without a name and with the phone "abc-123" gets the missing-fields
    response. *)
Theorem checks_fail_fast
    (SMTP_USER SMTP_PASS : option jsstring)
    (sendMail_result : transport_options -> mail -> option jsstring)
    (req_body : option Body) :
  well_typed (body_or_empty req_body) = true ->
  (missing_spec (body_or_empty req_body) <> [] ->
   handler SMTP_USER SMTP_PASS sendMail_result req_body
   = ([], Responded
            (missing_response (missing_spec (body_or_empty req_body)))))
  /\ (missing_spec (body_or_empty req_body) = [] ->
      forall f m,
        first_too_long (body_or_empty req_body) = Some (f, m) ->
        handler SMTP_USER SMTP_PASS sendMail_result req_body
        = ([], Responded (too_long_response f m)))
  /\ (missing_spec (body_or_empty req_body) = [] ->
      first_too_long (body_or_empty req_body) = None ->
      forallb phone_char (text_of (phone (body_or_empty req_body))) = false ->
      handler SMTP_USER SMTP_PASS sendMail_result req_body
      = ([], Responded invalid_phone_response))
  /\ (missing_spec (body_or_empty req_body) = [] ->
      first_too_long (body_or_empty req_body) = None ->
      forallb phone_char (text_of (phone (body_or_empty req_body))) = true ->
      transporter SMTP_USER SMTP_PASS = None ->
      snd (handler SMTP_USER SMTP_PASS sendMail_result req_body)
      = Responded not_configured_response)
  /\ (missing_spec (body_or_empty req_body) = [] ->
      first_too_long (body_or_empty req_body) = None ->
      forallb phone_char (text_of (phone (body_or_empty req_body))) = true ->
      transporter SMTP_USER SMTP_PASS <> None ->
      snd (handler SMTP_USER SMTP_PASS sendMail_result req_body)
      = Responded success_response
      \/ snd (handler SMTP_USER SMTP_PASS sendMail_result req_body)
         = Responded send_failed_response)
  /\ handler SMTP_USER SMTP_PASS sendMail_result (Some example_missing)
     = ([], Responded (missing_response [lit "name"; lit "caseType"])).
Proof.
  intros Hb. pose proof (validate_typed req_body Hb) as Hv.
  repeat split; try reflexivity.
  - intros Hne. apply handler_rejected. rewrite Hv.
    now destruct (missing_spec (body_or_empty req_body)).
  - intros Hm f m Hl. apply handler_rejected. now rewrite Hv, Hm, Hl.
  - intros Hm Hl Hp. apply handler_rejected. now rewrite Hv, Hm, Hl, Hp.
  - intros Hm Hl Hp Ht. rewrite Hm, Hl, Hp in Hv.
    now rewrite (handler_not_configured SMTP_USER SMTP_PASS sendMail_result
                   req_body [] Hv Ht).
  - intros Hm Hl Hp Ht.
    destruct req_body as [b|]; [|discriminate Hm]. cbn [body_or_empty] in *.
    destruct (transporter SMTP_USER SMTP_PASS) as [t|] eqn:Htr;
      [|congruence].
    rewrite (handler_delivers SMTP_USER SMTP_PASS sendMail_result b t
               Hb Hm Hl Hp Htr).
    destruct (sendMail_result t (expected_mail SMTP_USER b)); cbn; auto.
Qed.

Lemma checks_fail_fast_witness :
  handler None None always_delivers (Some example_too_long)
  = ([], Responded (failure 400 (lit "name exceeds maximum length of 200")))
  /\ handler None None always_delivers (Some example_bad_phone)
     = ([], Responded (failure 400 (lit "Invalid phone format")))
  /\ handler None None always_delivers None
     = ([], Responded
              (missing_response [lit "name"; lit "phone"; lit "caseType"])).
Proof.
  split; [|split].
  - destruct (checks_fail_fast None None always_delivers
                (Some example_too_long) eq_refl) as (_ & H & _).
    exact (H eq_refl (lit "name") 200 eq_refl).
  - destruct (checks_fail_fast None None always_delivers
                (Some example_bad_phone) eq_refl) as (_ & _ & H & _).
    exact (H eq_refl eq_refl eq_refl).
  - destruct (checks_fail_fast None None always_delivers None eq_refl)
      as (H & _).
    apply H. discriminate.
Defined.

(** C1. In the email of a submission that reaches rendering, each of
    name, phone, caseType and email is interpolated trimmed and with every
    [&], [<], [>] and double quote replaced by its entity, and the message
    likewise with its newlines turned into [<br>] after the escaping. The
    interpolated fields hold no [<], [>] or double quote, so that every tag
    of the body is one of the template or a line break of the message.
    For the name [<script>] the body holds [&lt;script&gt;] and no
    [<script>] tag. *)
Theorem email_fields_are_escaped
    (SMTP_USER : option jsstring) (c : N) (p : jsstring)
    (sendMail_result : transport_options -> mail -> option jsstring)
    (b : Body) :
  valid_submission b = true ->
  exists t m trace r,
    handler SMTP_USER (Some (c :: p)) sendMail_result (Some b)
    = (SendMail t m :: trace, Responded r)
    /\ html m
       = html_template (strict_eq_string (lang b) (lit "he"))
           (flat_map entity (js_trim (text_of (name b))))
           (flat_map entity (js_trim (text_of (phone b))))
           (flat_map entity (js_trim (text_of (caseType b))))
           (flat_map entity (js_trim (text_of (email b))))
           (replace_all LF (lit "<br>")
              (flat_map entity (js_trim (text_of (message b)))))
    /\ subject m
       = subject_template (strict_eq_string (lang b) (lit "he"))
           (flat_map entity (js_trim (text_of (name b))))
           (flat_map entity (js_trim (text_of (caseType b))))
    /\ entity AMP = lit "&amp;" /\ entity LT = lit "&lt;"
    /\ entity GT = lit "&gt;" /\ entity QUOT = lit "&quot;"
    /\ (forall s x, In x (flat_map entity s) ->
                    x <> LT /\ x <> GT /\ x <> QUOT)
    /\ only_template_tags (html m) = true
    /\ (name b = VString (lit "<script>") ->
        includes (lit "&lt;script&gt;") (html m) = true
        /\ includes (lit "<script>") (html m) = false
        /\ includes (lit "<script") (html m) = false).
Proof.
  intros Hvalid.
  destruct (handler_sends_expected SMTP_USER c p sendMail_result b Hvalid)
    as (trace & r & Hh).
  eexists. exists (expected_mail SMTP_USER b), trace, r.
  split; [exact Hh|]. cbn [html subject expected_mail].
  split; [|split].
  - rewrite html_template_layout. reflexivity.
  - rewrite subject_template_layout. reflexivity.
  - repeat (split; [reflexivity|]).
    split; [intros s; apply escape_html_no_markup|].
    split; [apply expected_html_tags|].
    intros Hname. split; [|split].
    + unfold expected_html. apply html_layout_shows_name.
      rewrite Hname. reflexivity.
    + exact (only_template_tags_excludes 115 (lit "cript>") _ eq_refl
               (expected_html_tags b)).
    + exact (only_template_tags_excludes 115 (lit "cript") _ eq_refl
               (expected_html_tags b)).
Qed.

Lemma email_fields_are_escaped_witness :
  exists t m trace r,
    handler None (Some (lit "app-password")) always_delivers
      (Some example_script)
    = (SendMail t m :: trace, Responded r)
    /\ includes (lit "&lt;script&gt;") (html m) = true
    /\ includes (lit "<script>") (html m) = false.
Proof.
  destruct (email_fields_are_escaped None 97 (lit "pp-password")
              always_delivers example_script eq_refl)
    as (t & m & trace & r & Hh & _ & _ & _ & _ & _ & _ & _ & _ & Hs).
  destruct (Hs eq_refl) as (Hin & Hout & _).
  exists t, m, trace, r. split; [exact Hh|]. split; assumption.
Defined.

(** C8. In the email of a submission that reaches rendering, when
    [lang] is the string "he" the subject and the body carry the Hebrew
    labels and the body is laid out right to left ([dir="rtl"]); for any
    other [lang], absent or not a string included, they carry the English
    labels and the body is laid out left to right ([dir="ltr"]). Subject
    and body are built by one layout from the labels and the escaped
    fields, so they differ between the languages in the labels and the
    direction only. *)
Theorem email_language
    (SMTP_USER : option jsstring) (c : N) (p : jsstring)
    (sendMail_result : transport_options -> mail -> option jsstring)
    (b : Body) :
  valid_submission b = true ->
  exists t m trace r,
    handler SMTP_USER (Some (c :: p)) sendMail_result (Some b)
    = (SendMail t m :: trace, Responded r)
    /\ (lang b = VString (lit "he") ->
        subject m
        = subject_layout hebrew (safe_text (name b)) (safe_text (caseType b))
        /\ html m
           = html_layout hebrew (safe_text (name b)) (safe_text (phone b))
               (safe_text (caseType b)) (safe_text (email b))
               (nl2br (safe_text (message b)))
        /\ includes (lit "dir=" ++ quoted (lit "rtl")) (html m) = true)
    /\ (lang b <> VString (lit "he") ->
        subject m
        = subject_layout english (safe_text (name b)) (safe_text (caseType b))
        /\ html m
           = html_layout english (safe_text (name b)) (safe_text (phone b))
               (safe_text (caseType b)) (safe_text (email b))
               (nl2br (safe_text (message b)))
        /\ includes (lit "dir=" ++ quoted (lit "ltr")) (html m) = true)
    /\ html m
       = html_template (strict_eq_string (lang b) (lit "he"))
           (safe_text (name b)) (safe_text (phone b))
           (safe_text (caseType b)) (safe_text (email b))
           (nl2br (safe_text (message b)))
    /\ subject m
       = subject_template (strict_eq_string (lang b) (lit "he"))
           (safe_text (name b)) (safe_text (caseType b)).
Proof.
  intros Hvalid.
  destruct (handler_sends_expected SMTP_USER c p sendMail_result b Hvalid)
    as (trace & r & Hh).
  eexists. exists (expected_mail SMTP_USER b), trace, r.
  split; [exact Hh|].
  cbn [html subject expected_mail].
  unfold expected_html, expected_subject, labels_of.
  split; [|split; [|split]].
  - intros ->. cbn [strict_eq_string]. rewrite jsstring_eqb_refl.
    split; [reflexivity|]. split; [reflexivity|].
    apply (html_layout_direction hebrew).
  - intros Hne. rewrite (strict_eq_string_false _ _ Hne).
    split; [reflexivity|]. split; [reflexivity|].
    apply (html_layout_direction english).
  - now rewrite html_template_layout.
  - now rewrite subject_template_layout.
Qed.

Lemma email_language_witness :
  exists t m trace r,
    handler None (Some (lit "app-password")) always_delivers
      (Some example_hebrew)
    = (SendMail t m :: trace, Responded r)
    /\ includes (lit "dir=" ++ quoted (lit "rtl")) (html m) = true
    /\ includes he_phone (html m) = true
    /\ starts_with he_subject_prefix (subject m) = true.
Proof.
  destruct (email_language None 97 (lit "pp-password") always_delivers
              example_hebrew eq_refl)
    as (t & m & trace & r & Hh & Hhe & _).
  destruct (Hhe eq_refl) as (Hsubject & Hhtml & Hdir).
  exists t, m, trace, r. split; [exact Hh|]. split; [exact Hdir|].
  rewrite Hhtml, Hsubject. split; reflexivity.
Defined.

(* ===================================================================== *)
(** * Further properties of the code                                     *)
(* ===================================================================== *)

(** ** [esc] *)

Lemma entity_cases (c : N) :
  (c = AMP /\ entity c = lit "&amp;")
  \/ (c = LT /\ entity c = lit "&lt;")
  \/ (c = GT /\ entity c = lit "&gt;")
  \/ (c = QUOT /\ entity c = lit "&quot;")
  \/ (plain_char c = true /\ entity c = [c]).
Proof.
  unfold entity, plain_char.
  destruct (N.eqb_spec c AMP); [now left|].
  destruct (N.eqb_spec c LT); [now right; left|].
  destruct (N.eqb_spec c GT); [now right; right; left|].
  destruct (N.eqb_spec c QUOT); [now right; right; right; left|].
  now right; right; right; right.
Qed.

Lemma plain_char_not_special (c : N) :
  plain_char c = true -> c <> AMP /\ c <> LT /\ c <> GT /\ c <> QUOT.
Proof.
  unfold plain_char. rewrite negb_true_iff, !orb_false_iff, !N.eqb_neq.
  tauto.
Qed.

Lemma entity_length (c : N) :
  (1 <= List.length (entity c) <= 6)%nat
  /\ (List.length (entity c) = 1%nat <-> plain_char c = true).
Proof.
  destruct (entity_cases c) as [[-> ->]|[[-> ->]|[[-> ->]|[[-> ->]|[H ->]]]]];
    cbn; (split; [lia|]); split; intros; try discriminate; try lia;
    try reflexivity; assumption.
Qed.

Lemma escape_html_cons (c : N) (s : jsstring) :
  escape_html (c :: s) = entity c ++ escape_html s.
Proof. reflexivity. Qed.

Lemma escape_html_length (s : jsstring) :
  (List.length s <= List.length (escape_html s) <= 6 * List.length s)%nat.
Proof.
  induction s as [|c s IH]; [cbn; lia|].
  rewrite escape_html_cons, length_app. cbn [List.length].
  pose proof (entity_length c) as [Hc _]. lia.
Qed.

Lemma escape_html_plain (s : jsstring) :
  plain s = true -> escape_html s = s.
Proof.
  induction s as [|c s IH]; [reflexivity|].
  cbn [plain forallb]. intros H. apply andb_true_iff in H as [Hc Hs].
  rewrite escape_html_cons, (IH Hs).
  destruct (entity_cases c) as [[-> _]|[[-> _]|[[-> _]|[[-> _]|[_ ->]]]]];
    try discriminate. reflexivity.
Qed.

Lemma escape_html_fixed (s : jsstring) :
  escape_html s = s -> plain s = true.
Proof.
  induction s as [|c s IH]; [reflexivity|].
  rewrite escape_html_cons. intros H.
  pose proof (escape_html_length s) as Hlen.
  pose proof (f_equal (@List.length N) H) as Hl.
  rewrite length_app in Hl. cbn [List.length] in Hl.
  pose proof (entity_length c) as [Hrange Hone].
  assert (Hc : plain_char c = true) by (apply Hone; lia).
  cbn [plain forallb]. rewrite Hc. cbn [andb]. apply IH.
  destruct (entity_cases c) as [[-> _]|[[-> _]|[[-> _]|[[-> _]|[_ He]]]]];
    try discriminate.
  rewrite He in H. now injection H.
Qed.

Lemma plain_app (a b : jsstring) : plain (a ++ b) = plain a && plain b.
Proof. apply forallb_app. Qed.

Lemma plain_escape_html (s : jsstring) : plain (escape_html s) = plain s.
Proof.
  induction s as [|c s IH]; [reflexivity|].
  rewrite escape_html_cons, plain_app, IH. cbn [plain forallb].
  f_equal.
  destruct (entity_cases c) as [[-> ->]|[[-> ->]|[[-> ->]|[[-> ->]|[H ->]]]]];
    try reflexivity.
  cbn. now rewrite H.
Qed.

(** X1. [esc] returns its argument unchanged exactly when the argument
    holds none of [&], [<], [>] and the double quote, and applying [esc]
    to its own output changes it again (escapes twice) unless the first
    argument held none of them. *)
Theorem esc_fixed_points (s : jsstring) :
  (esc (VString s) = ([], Normal s) <-> plain s = true)
  /\ exists once twice,
       esc (VString s) = ([], Normal once)
       /\ esc (VString once) = ([], Normal twice)
       /\ (twice = once <-> plain s = true).
Proof.
  split.
  - rewrite esc_string. split.
    + intros H. injection H as H. now apply escape_html_fixed.
    + intros H. now rewrite (escape_html_plain s H).
  - exists (escape_html s), (escape_html (escape_html s)).
    rewrite !esc_string. repeat split.
    + intros H. apply escape_html_fixed in H.
      now rewrite plain_escape_html in H.
    + intros H. apply escape_html_plain. now rewrite plain_escape_html.
Qed.

Lemma entity_app_inj (c1 c2 : N) (r1 r2 : jsstring) :
  entity c1 ++ r1 = entity c2 ++ r2 -> c1 = c2 /\ r1 = r2.
Proof.
  destruct (entity_cases c1)
    as [[-> ->]|[[-> ->]|[[-> ->]|[[-> ->]|[H1 ->]]]]];
  destruct (entity_cases c2)
    as [[-> ->]|[[-> ->]|[[-> ->]|[[-> ->]|[H2 ->]]]]];
  try apply plain_char_not_special in H1;
  try apply plain_char_not_special in H2;
  cbn; intros H; try discriminate H;
  try (injection H as H; subst; tauto);
  try (injection H as H; tauto).
Qed.

Lemma escape_html_injective (a : jsstring) :
  forall b, escape_html a = escape_html b -> a = b.
Proof.
  induction a as [|c a IH]; intros [|d b] H.
  - reflexivity.
  - rewrite escape_html_cons in H. cbn in H.
    pose proof (entity_length d) as [Hd _].
    apply (f_equal (@List.length N)) in H. rewrite length_app in H.
    cbn in H. lia.
  - rewrite escape_html_cons in H. cbn in H.
    pose proof (entity_length c) as [Hc _].
    apply (f_equal (@List.length N)) in H. rewrite length_app in H.
    cbn in H. lia.
  - rewrite !escape_html_cons in H.
    apply entity_app_inj in H as [-> H]. now rewrite (IH b H).
Qed.

(** X2. [esc] loses nothing: two strings with the same escaped form are
    the same string. *)
Theorem esc_injective (a b : jsstring) :
  esc (VString a) = esc (VString b) -> a = b.
Proof.
  rewrite !esc_string. intros H. injection H as H.
  now apply escape_html_injective.
Qed.

Lemma esc_injective_witness :
  js_trim (lit "  a<b & c  ") = lit "a<b & c".
Proof.
  apply (esc_injective (js_trim (lit "  a<b & c  ")) (lit "a<b & c")).
  reflexivity.
Defined.

(** X3. [esc] works piece by piece: escaping a concatenation gives the
    concatenation of the escaped pieces. *)
Theorem esc_concatenation (a b : jsstring) :
  exists ea eb,
    esc (VString a) = ([], Normal ea)
    /\ esc (VString b) = ([], Normal eb)
    /\ esc (VString (a ++ b)) = ([], Normal (ea ++ eb)).
Proof.
  exists (escape_html a), (escape_html b). rewrite !esc_string.
  repeat split. unfold escape_html. now rewrite flat_map_app.
Qed.

(** X4. The output of [esc] is at least as long as its input and at
    most six times as long. *)
Theorem esc_length_bounds (s : jsstring) :
  exists out,
    esc (VString s) = ([], Normal out)
    /\ js_length s <= js_length out
    /\ js_length out <= 6 * js_length s.
Proof.
  exists (escape_html s). split; [apply esc_string|].
  pose proof (escape_html_length s). unfold js_length. lia.
Qed.

(** X5. On any value [esc] performs no effect; it returns exactly when
    [String] does, then with the escaped conversion, which holds no [<],
    [>] or double quote, and otherwise throws what [String] throws. An
    absent value is shown as the text "undefined" and [null] as "null". *)
Theorem esc_any_value (v : value) :
  ((exists s, ToString v = ([], Normal s)
              /\ esc v = ([], Normal (flat_map entity s))
              /\ forall x, In x (flat_map entity s) ->
                           x <> LT /\ x <> GT /\ x <> QUOT)
   \/ (exists e, ToString v = ([], Thrown e) /\ esc v = ([], Thrown e)))
  /\ esc VUndefined = ([], Normal (lit "undefined"))
  /\ esc VNull = ([], Normal (lit "null")).
Proof.
  split; [|split; reflexivity].
  destruct v as [| |s|t [s|]].
  - left. exists (lit "undefined"). repeat split; try reflexivity;
      now apply escape_html_no_markup in H.
  - left. exists (lit "null"). repeat split; try reflexivity;
      now apply escape_html_no_markup in H.
  - left. exists s. split; [reflexivity|]. split; [apply esc_string|].
    apply escape_html_no_markup.
  - left. exists s. split; [reflexivity|].
    split; [apply (esc_string s)|]. apply escape_html_no_markup.
  - right. eexists. split; reflexivity.
Qed.

(** ** The handler on any body *)

Lemma checked_bind {A B : Type} (m : M A) (k : A -> M B) :
  checked m -> (forall a, checked (k a)) -> checked (bind m k).
Proof.
  unfold checked, bind. destruct m as [t [a|r|e]]; cbn; intros [-> Hm] Hk.
  - specialize (Hk a). destruct (k a) as [t' c]. exact Hk.
  - now split.
  - now split.
Qed.

Lemma checked_ret {A : Type} (a : A) : checked (ret a).
Proof. now split. Qed.

Lemma checked_ToString (v : value) : checked (ToString v).
Proof.
  destruct v as [| |s|t [s|]]; split; cbn; try reflexivity; try exact I.
  now eexists.
Qed.

Lemma checked_call_trim (v : value) : checked (call_trim v).
Proof.
  destruct v as [| |s|t o]; split; cbn; try reflexivity; try exact I;
    now eexists.
Qed.

Lemma checked_esc (v : value) : checked (esc v).
Proof.
  unfold esc. apply checked_bind; [apply checked_ToString|].
  intros s. apply checked_ret.
Qed.

Lemma checked_filterM {A : Type} (p : A -> M bool) (l : list A) :
  (forall x, checked (p x)) -> checked (filterM p l).
Proof.
  intros Hp. induction l as [|x l IH]; [apply checked_ret|].
  cbn [filterM]. apply checked_bind; [apply Hp|]. intros keep.
  apply checked_bind; [apply IH|]. intros rest. apply checked_ret.
Qed.

Lemma checked_for_of {A : Type} (body : A -> M unit) (l : list A) :
  (forall x, checked (body x)) -> checked (for_of l body).
Proof.
  intros Hb. induction l as [|x l IH]; [apply checked_ret|].
  cbn [for_of]. apply checked_bind; [apply Hb | intros _; apply IH].
Qed.

Lemma checked_member (req_body : option Body) (k : jsstring) :
  checked (member req_body k).
Proof.
  destruct req_body; split; cbn; try reflexivity; try exact I.
  now eexists.
Qed.

Lemma checked_check_limit (req_body : option Body) (e : jsstring * N) :
  checked (check_limit req_body e).
Proof.
  unfold check_limit. apply checked_bind; [apply checked_member|].
  intros v. apply checked_bind.
  - destruct (truthy v); [|apply checked_ret].
    apply checked_bind; [apply checked_member|]. intros v'.
    apply checked_bind; [apply checked_ToString|]. intros s.
    apply checked_ret.
  - intros [|]; [now split | apply checked_ret].
Qed.

Lemma checked_validate (req_body : option Body) :
  checked (validate req_body).
Proof.
  unfold validate. apply checked_bind.
  - unfold missing_fields. apply checked_bind.
    + apply checked_filterM. intros e. unfold is_missing.
      destruct (is_nullish (snd e)); [apply checked_ret|].
      apply checked_bind; [apply checked_ToString|]. intros s.
      apply checked_ret.
    + intros kept. apply checked_ret.
  - intros missing. apply checked_bind.
    + destruct (negb (array_length missing =? 0));
        [now split | apply checked_ret].
    + intros _. apply checked_bind.
      * apply checked_for_of, checked_check_limit.
      * intros _. unfold regex_test. apply checked_bind.
        -- apply checked_bind; [apply checked_ToString|]. intros s.
           apply checked_ret.
        -- intros [|]; [apply checked_ret | now split].
Qed.

Lemma checked_render (b : Body) : checked (render b).
Proof.
  unfold render.
  repeat (apply checked_bind;
          [ first [ apply checked_bind;
                    [ apply checked_call_trim
                    | intros ?; first [ apply checked_esc
                                      | apply checked_bind;
                                        [apply checked_esc
                                        | intros ?; apply checked_ret] ] ]
                  | destruct (truthy (email b));
                    [ apply checked_bind;
                      [apply checked_call_trim | intros ?; apply checked_esc]
                    | apply checked_ret ] ]
          | intros ? ]).
  apply checked_ret.
Qed.

(** Every run of the handler has one of five shapes. *)
Lemma handler_shape
    (SMTP_USER SMTP_PASS : option jsstring)
    (sendMail_result : transport_options -> mail -> option jsstring)
    (req_body : option Body) :
  (exists r, handler SMTP_USER SMTP_PASS sendMail_result req_body
             = ([], Responded r) /\ status r = 400)
  \/ (exists msg, handler SMTP_USER SMTP_PASS sendMail_result req_body
                  = ([], Thrown (TypeError msg)))
  \/ (transporter SMTP_USER SMTP_PASS = None
      /\ handler SMTP_USER SMTP_PASS sendMail_result req_body
         = ([ConsoleWarn (lit "SMTP_PASS not configured " ++ [EN_DASH]
                            ++ lit " email skipped")],
            Responded not_configured_response))
  \/ (exists t subj body,
        transporter SMTP_USER SMTP_PASS = Some t
        /\ sendMail_result t
             {| from := quoted (lit "Alon Pardo Website") ++ lit " <"
                          ++ sender_account SMTP_USER ++ lit ">";
                to := lit "pardooren@gmail.com";
                subject := subj; html := body |} = None
        /\ handler SMTP_USER SMTP_PASS sendMail_result req_body
           = ([SendMail t
                 {| from := quoted (lit "Alon Pardo Website") ++ lit " <"
                              ++ sender_account SMTP_USER ++ lit ">";
                    to := lit "pardooren@gmail.com";
                    subject := subj; html := body |}],
              Responded success_response))
  \/ (exists t subj body cause,
        transporter SMTP_USER SMTP_PASS = Some t
        /\ sendMail_result t
             {| from := quoted (lit "Alon Pardo Website") ++ lit " <"
                          ++ sender_account SMTP_USER ++ lit ">";
                to := lit "pardooren@gmail.com";
                subject := subj; html := body |} = Some cause
        /\ handler SMTP_USER SMTP_PASS sendMail_result req_body
           = ([SendMail t
                 {| from := quoted (lit "Alon Pardo Website") ++ lit " <"
                              ++ sender_account SMTP_USER ++ lit ">";
                    to := lit "pardooren@gmail.com";
                    subject := subj; html := body |};
               ConsoleError (lit "Email send error:") cause],
              Responded send_failed_response)).
Proof.
  unfold handler.
  destruct (checked_validate req_body) as [Hs Hc].
  destruct (validate req_body) as [t0 c0]. cbn in Hs, Hc. subst t0.
  destruct c0 as [[]|r|e].
  - rewrite bind_normal.
    destruct (transporter SMTP_USER SMTP_PASS) as [t|] eqn:Ht.
    + destruct (checked_render (body_or_empty req_body)) as [Hrs Hrc].
      destruct (render (body_or_empty req_body)) as [t1 c1].
      cbn in Hrs, Hrc. subst t1. destruct c1 as [[subj body]|r|e].
      * rewrite bind_normal. cbn [fst snd].
        unfold sendMail, emit, try_catch, bind.
        destruct (sendMail_result t _) as [cause|] eqn:Hr.
        -- right; right; right; right.
           exists t, subj, body, cause. now rewrite Hr.
        -- right; right; right; left. exists t, subj, body. now rewrite Hr.
      * left. exists r. now split.
      * destruct Hrc as [msg ->]. right; left. now exists msg.
    + right; right; left. now split.
  - left. exists r. now split.
  - destruct Hc as [msg ->]. right; left. now exists msg.
Qed.

Lemma transporter_some
    (SMTP_USER SMTP_PASS : option jsstring) (t : transport_options) :
  transporter SMTP_USER SMTP_PASS = Some t ->
  service t = lit "gmail"
  /\ auth_user t = sender_account SMTP_USER
  /\ SMTP_PASS = Some (auth_pass t)
  /\ auth_pass t <> [].
Proof.
  unfold transporter. destruct SMTP_PASS as [[|c p]|]; try discriminate.
  intros H. injection H as <-. cbn. repeat split. discriminate.
Qed.

Lemma sender_account_cases (SMTP_USER : option jsstring) :
  sender_account SMTP_USER <> []
  /\ (SMTP_USER = Some (sender_account SMTP_USER)
      \/ ((SMTP_USER = None \/ SMTP_USER = Some [])
          /\ sender_account SMTP_USER = lit "pardooren@gmail.com")).
Proof.
  destruct SMTP_USER as [[|c u]|]; cbn; split; try discriminate; auto.
Qed.

(** X6. Whatever the body, a run of the handler ends in one of two ways:
    with a response whose status is 200, 400, 500 or 503, or with a thrown
    [TypeError] and no response. It hands at most one mail to the
    transport, and exactly one when it answers 200 or 500; when it answers
    400 or 503 or throws, it sent none, and when it answers 400 or
    throws it has not written to the console either. *)
Theorem handler_outcomes
    (SMTP_USER SMTP_PASS : option jsstring)
    (sendMail_result : transport_options -> mail -> option jsstring)
    (req_body : option Body) :
  exists trace,
    ((exists r,
        handler SMTP_USER SMTP_PASS sendMail_result req_body
        = (trace, Responded r)
        /\ ((status r = 200 /\ List.length (sent_mails trace) = 1%nat)
            \/ (status r = 500 /\ List.length (sent_mails trace) = 1%nat)
            \/ (status r = 503 /\ sent_mails trace = [])
            \/ (status r = 400 /\ trace = [])))
     \/ (exists msg,
           handler SMTP_USER SMTP_PASS sendMail_result req_body
           = (trace, Thrown (TypeError msg))
           /\ trace = []))
    /\ (List.length (sent_mails trace) <= 1)%nat.
Proof.
  destruct (handler_shape SMTP_USER SMTP_PASS sendMail_result req_body)
    as [(r & -> & Hr)
       |[(msg & ->)
        |[(_ & ->)
         |[(t & subj & body & _ & _ & ->)
          |(t & subj & body & cause & _ & _ & ->)]]]];
    eexists; (split; [|shelve]).
  - left. exists r. split; [reflexivity|]. tauto.
  - right. exists msg. now split.
  - left. eexists. split; [reflexivity|]. cbn. tauto.
  - left. eexists. split; [reflexivity|]. cbn. tauto.
  - left. eexists. split; [reflexivity|]. cbn. tauto.
  Unshelve. all: cbn; lia.
Qed.

(** X7. Whatever the body, a mail that is handed to the transport goes
    to the fixed recipient through the gmail service, authenticated with
    SMTP_PASS, which is then not empty, and its sender is "Alon Pardo
    Website" with the address the transport authenticates as: SMTP_USER,
    or pardooren@gmail.com when SMTP_USER is absent or empty. *)
Theorem mail_envelope
    (SMTP_USER SMTP_PASS : option jsstring)
    (sendMail_result : transport_options -> mail -> option jsstring)
    (req_body : option Body) (t : transport_options) (m : mail) :
  In (SendMail t m)
     (fst (handler SMTP_USER SMTP_PASS sendMail_result req_body)) ->
  to m = lit "pardooren@gmail.com"
  /\ from m = quoted (lit "Alon Pardo Website") ++ lit " <"
                ++ auth_user t ++ lit ">"
  /\ service t = lit "gmail"
  /\ SMTP_PASS = Some (auth_pass t)
  /\ auth_pass t <> []
  /\ auth_user t <> []
  /\ (SMTP_USER = Some (auth_user t)
      \/ ((SMTP_USER = None \/ SMTP_USER = Some [])
          /\ auth_user t = lit "pardooren@gmail.com")).
Proof.
  intros Hin.
  assert (H : transporter SMTP_USER SMTP_PASS = Some t
              /\ to m = lit "pardooren@gmail.com"
              /\ from m = quoted (lit "Alon Pardo Website") ++ lit " <"
                            ++ sender_account SMTP_USER ++ lit ">").
  { destruct (handler_shape SMTP_USER SMTP_PASS sendMail_result req_body)
      as [(r & Hh & _)
         |[(msg & Hh)
          |[(_ & Hh)
           |[(t' & subj & body & Ht & _ & Hh)
            |(t' & subj & body & cause & Ht & _ & Hh)]]]];
      rewrite Hh in Hin; cbn in Hin.
    - contradiction.
    - contradiction.
    - destruct Hin as [Hin|[]]. discriminate.
    - destruct Hin as [Hin|[]]. injection Hin as <- <-. now repeat split.
    - destruct Hin as [Hin|[Hin|[]]]; [|discriminate].
      injection Hin as <- <-. now repeat split. }
  destruct H as (Ht & Hto & Hfrom).
  apply transporter_some in Ht as (Hs & Hu & Hp & Hne).
  destruct (sender_account_cases SMTP_USER) as [Hacc Hcases].
  rewrite Hu. repeat split; try assumption.
Qed.

Lemma mail_envelope_witness :
  exists t m,
    In (SendMail t m)
       (fst (handler (Some []) (Some (lit "app-password")) always_fails
               (Some example_hebrew)))
    /\ from m = quoted (lit "Alon Pardo Website")
                  ++ lit " <pardooren@gmail.com>".
Proof.
  eexists. eexists. split; [left; reflexivity|].
  refine (proj1 (proj2 (mail_envelope (Some []) (Some (lit "app-password"))
                          always_fails (Some example_hebrew) _ _
                          (or_introl eq_refl)))).
Defined.

(** ** When rendering throws *)

Lemma render_renderable (b : Body) :
  renderable b = true -> exists rendered, render b = ([], Normal rendered).
Proof.
  unfold renderable. rewrite !andb_true_iff.
  intros ((((Hn & Hp) & Hc) & He) & Hm).
  destruct (name b) as [| |n|? ?] eqn:En; try discriminate.
  destruct (phone b) as [| |p|? ?] eqn:Ep; try discriminate.
  destruct (caseType b) as [| |c|? ?] eqn:Ec; try discriminate.
  unfold render. rewrite En, Ep, Ec.
  destruct (email b) as [| |[|x e]|[|] oe]; try discriminate;
    destruct (message b) as [| |m|tm om]; try discriminate;
    eexists; reflexivity.
Qed.

Lemma render_not_renderable (b : Body) :
  renderable b = false ->
  exists msg, render b = ([], Thrown (TypeError msg)).
Proof.
  unfold renderable, render. intros H.
  destruct (name b) as [| |n|? ?]; try (eexists; reflexivity).
  destruct (phone b) as [| |p|? ?]; try (eexists; reflexivity).
  destruct (caseType b) as [| |c|? ?]; try (eexists; reflexivity).
  destruct (email b) as [| |[|x e]|[|] oe]; try (eexists; reflexivity);
    destruct (message b) as [| |m|tm om];
    try discriminate H; eexists; reflexivity.
Qed.

(** X8. With the transport configured, a body that passes the three
    checks is answered exactly when lines 94-98 call [trim] on strings
    only: name, phone and caseType are strings, email is a string or
    falsy, message is a string, [null] or absent. Then one mail is sent
    and the status is 200 or 500. Otherwise, as for a phone given as a
    number, the handler throws a [TypeError] before any effect: no
    response, no mail, no console output. *)
Theorem handler_throws_on_non_strings
    (SMTP_USER : option jsstring) (c : N) (p : jsstring)
    (sendMail_result : transport_options -> mail -> option jsstring)
    (b : Body) :
  validate (Some b) = ([], Normal tt) ->
  (renderable b = true ->
   exists t m rest r,
     handler SMTP_USER (Some (c :: p)) sendMail_result (Some b)
     = (SendMail t m :: rest, Responded r)
     /\ (status r = 200 \/ status r = 500))
  /\ (renderable b = false ->
      exists msg,
        handler SMTP_USER (Some (c :: p)) sendMail_result (Some b)
        = ([], Thrown (TypeError msg))).
Proof.
  intros Hv. unfold handler. rewrite Hv, bind_normal.
  cbn [transporter body_or_empty]. split; intros Hr.
  - destruct (render_renderable b Hr) as (rendered & ->).
    rewrite bind_normal. unfold sendMail, emit, try_catch, bind.
    destruct (sendMail_result _ _); do 4 eexists;
      (split; [reflexivity|]); cbn; auto.
  - destruct (render_not_renderable b Hr) as (msg & ->).
    now exists msg.
Qed.

Lemma handler_throws_on_non_strings_witness :
  (exists msg,
     handler None (Some (lit "app-password")) always_delivers
       (Some example_numeric_phone)
     = ([], Thrown (TypeError msg)))
  /\ (exists r,
        snd (handler None (Some (lit "app-password")) always_delivers
               (Some example_valid)) = Responded r
        /\ (status r = 200 \/ status r = 500)).
Proof.
  split.
  - exact (proj2 (handler_throws_on_non_strings None 97 (lit "pp-password")
                    always_delivers example_numeric_phone eq_refl)
             eq_refl).
  - destruct (proj1 (handler_throws_on_non_strings None 97
                       (lit "pp-password") always_delivers example_valid
                       eq_refl) eq_refl)
      as (t & m & rest & r & Hh & Hr).
    exists r. split; [exact (f_equal snd Hh) | exact Hr].
Defined.

(** X9. On a body typed as in the data model (text fields that are
    strings, [null] or absent), and also when the request has no body, the
    handler never throws: it always answers, with status 200, 400, 500 or
    503. *)
Theorem handler_answers_typed_bodies
    (SMTP_USER SMTP_PASS : option jsstring)
    (sendMail_result : transport_options -> mail -> option jsstring)
    (req_body : option Body) :
  well_typed (body_or_empty req_body) = true ->
  exists trace r,
    handler SMTP_USER SMTP_PASS sendMail_result req_body
    = (trace, Responded r)
    /\ In (status r) [200; 400; 500; 503].
Proof.
  intros Hb. pose proof (validate_typed req_body Hb) as Hv.
  destruct (missing_spec (body_or_empty req_body)) as [|k ks] eqn:Hm.
  - destruct (first_too_long (body_or_empty req_body)) as [e|] eqn:Hl.
    + rewrite (handler_rejected _ _ _ _ _ _ Hv).
      do 2 eexists. split; [reflexivity|]. cbn. tauto.
    + destruct (forallb phone_char
                  (text_of (phone (body_or_empty req_body)))) eqn:Hp.
      * destruct req_body as [b|]; [|discriminate Hm].
        cbn [body_or_empty] in *.
        destruct (transporter SMTP_USER SMTP_PASS) as [t|] eqn:Ht.
        -- rewrite (handler_delivers SMTP_USER SMTP_PASS sendMail_result
                      b t Hb Hm Hl Hp Ht).
           destruct (sendMail_result t (expected_mail SMTP_USER b));
             do 2 eexists; (split; [reflexivity|]); cbn; tauto.
        -- rewrite (handler_not_configured _ _ _ _ _ Hv Ht).
           do 2 eexists. split; [reflexivity|]. cbn. tauto.
      * rewrite (handler_rejected _ _ _ _ _ _ Hv).
        do 2 eexists. split; [reflexivity|]. cbn. tauto.
  - rewrite (handler_rejected _ _ _ _ _ _ Hv).
    do 2 eexists. split; [reflexivity|]. cbn. tauto.
Qed.

Lemma handler_answers_typed_bodies_witness :
  exists trace r,
    handler None None always_delivers None = (trace, Responded r)
    /\ In (status r) [200; 400; 500; 503].
Proof.
  exact (handler_answers_typed_bodies None None always_delivers None
           eq_refl).
Defined.

(** ** What validation reads *)

(** X10. The [lang] field decides nothing but the language: replacing
    it by any value whatever leaves the outcome of the three checks
    unchanged, and, for a transport whose verdict does not depend on the
    mail, leaves unchanged whether the handler answers or throws and the
    status it answers with. *)
Theorem lang_does_not_change_the_status
    (SMTP_USER SMTP_PASS : option jsstring) (verdict : option jsstring)
    (b : Body) (v : value) :
  validate (Some (with_lang v b)) = validate (Some b)
  /\ status_of_handler_result
       (handler SMTP_USER SMTP_PASS (fun _ _ => verdict)
          (Some (with_lang v b)))
     = status_of_handler_result
         (handler SMTP_USER SMTP_PASS (fun _ _ => verdict) (Some b)).
Proof.
  assert (Hv : validate (Some (with_lang v b)) = validate (Some b))
    by (destruct b; reflexivity).
  assert (Hr : renderable (with_lang v b) = renderable b)
    by (destruct b; reflexivity).
  split; [exact Hv|].
  unfold handler. rewrite Hv.
  destruct (validate (Some b)) as [t0 [[]|r0|e0]]; try reflexivity.
  cbn [bind body_or_empty].
  destruct (transporter SMTP_USER SMTP_PASS) as [t|]; [|reflexivity].
  pose proof (render_renderable b) as Hyes.
  pose proof (render_not_renderable b) as Hno.
  pose proof (render_renderable (with_lang v b)) as Hyes'.
  pose proof (render_not_renderable (with_lang v b)) as Hno'.
  rewrite Hr in Hyes', Hno'.
  destruct (renderable b).
  - destruct (Hyes eq_refl) as (x & ->).
    destruct (Hyes' eq_refl) as (x' & ->).
    unfold sendMail, emit, try_catch, bind. now destruct verdict.
  - destruct (Hno eq_refl) as (msg & ->).
    destruct (Hno' eq_refl) as (msg' & ->). reflexivity.
Qed.

Lemma exceeds_false_iff (v : value) (m : N) :
  stringy v = true ->
  (exceeds v m = false <-> js_length (text_of v) <= m).
Proof.
  destruct v as [| |s|t o]; cbn; try discriminate; intros _.
  - split; [intros _; apply N.le_0_l | reflexivity].
  - split; [intros _; apply N.le_0_l | reflexivity].
  - apply N.ltb_ge.
Qed.

(** X11. On a well-typed body the length loop lets the request through
    exactly when every field is within its limit, the limit included:
    name at most 200 code units, phone 30, caseType 100, email 254 and
    message 5000. The lengths are those of the values as received, before
    any trimming, and an absent or [null] field counts as empty. *)
Theorem length_limits_are_inclusive (b : Body) :
  well_typed b = true ->
  (for_of limits (check_limit (Some b)) = ([], Normal tt)
   <-> js_length (text_of (name b)) <= 200
       /\ js_length (text_of (phone b)) <= 30
       /\ js_length (text_of (caseType b)) <= 100
       /\ js_length (text_of (email b)) <= 254
       /\ js_length (text_of (message b)) <= 5000).
Proof.
  intros Hb.
  pose proof (well_typed_fields b Hb) as (Hn & Hp & Hc & He & Hm).
  rewrite (length_check_typed b Hb).
  rewrite <- (exceeds_false_iff _ 200 Hn), <- (exceeds_false_iff _ 30 Hp),
    <- (exceeds_false_iff _ 100 Hc), <- (exceeds_false_iff _ 254 He),
    <- (exceeds_false_iff _ 5000 Hm).
  unfold first_too_long, limits. cbn [find fst snd].
  rewrite prop_name, prop_phone, prop_caseType, prop_email, prop_message.
  destruct (exceeds (name b) 200), (exceeds (phone b) 30),
    (exceeds (caseType b) 100), (exceeds (email b) 254),
    (exceeds (message b) 5000);
    split; intros H; try discriminate H; try reflexivity;
    try tauto; destruct H as (? & ? & ? & ? & ?); discriminate.
Qed.

Lemma length_limits_are_inclusive_witness :
  for_of limits (check_limit (Some example_padded_name))
  <> ([], Normal tt).
Proof.
  intros H.
  apply (length_limits_are_inclusive example_padded_name eq_refl) in H.
  destruct H as [H _]. exact (H eq_refl).
Defined.

(** ** What the email shows *)

Lemma blank_safe_text (v : value) : blank v = true -> safe_text v = [].
Proof.
  destruct v as [| |s|t o]; cbn [blank]; try reflexivity; try discriminate.
  intros Hs. unfold safe_text. cbn [text_of].
  rewrite <- js_trim_blank in Hs. apply jsstring_eqb_eq in Hs.
  now rewrite Hs.
Qed.

Lemma valid_with_email (b : Body) :
  valid_submission b = true ->
  valid_submission (with_email VUndefined b) = true.
Proof.
  unfold valid_submission. cbn. rewrite !andb_true_iff.
  intros (((((Hn & Hp) & Hpc) & Hc) & _) & Hm). now repeat split.
Qed.

Lemma valid_with_message (b : Body) :
  valid_submission b = true ->
  valid_submission (with_message VUndefined b) = true.
Proof.
  unfold valid_submission. cbn. rewrite !andb_true_iff.
  intros (((((Hn & Hp) & Hpc) & Hc) & He) & _). now repeat split.
Qed.

Lemma handler_valid
    (SMTP_USER SMTP_PASS : option jsstring)
    (sendMail_result : transport_options -> mail -> option jsstring)
    (b : Body) :
  valid_submission b = true ->
  handler SMTP_USER SMTP_PASS sendMail_result (Some b)
  = match transporter SMTP_USER SMTP_PASS with
    | None =>
        ([ConsoleWarn (lit "SMTP_PASS not configured " ++ [EN_DASH]
                         ++ lit " email skipped")],
         Responded not_configured_response)
    | Some t =>
        match sendMail_result t (expected_mail SMTP_USER b) with
        | None =>
            ([SendMail t (expected_mail SMTP_USER b)],
             Responded success_response)
        | Some msg =>
            ([SendMail t (expected_mail SMTP_USER b);
              ConsoleError (lit "Email send error:") msg],
             Responded send_failed_response)
        end
    end.
Proof.
  intros Hvalid.
  destruct (transporter SMTP_USER SMTP_PASS) as [t|] eqn:Ht.
  - apply valid_submission_checks in Hvalid as (Hb & Hm & Hl & Hp).
    now apply handler_delivers.
  - apply valid_submission_iff in Hvalid as [_ Hv].
    now apply (handler_not_configured _ _ _ _ [] Hv).
Qed.

(** X12. An email or a message made only of whitespace is treated as
    an absent one: for a valid submission the run of the handler, with
    the mail it sends, is the same as for the submission without that
    field. *)
Theorem blank_optional_fields_are_dropped
    (SMTP_USER SMTP_PASS : option jsstring)
    (sendMail_result : transport_options -> mail -> option jsstring)
    (b : Body) :
  valid_submission b = true ->
  (blank (email b) = true ->
   handler SMTP_USER SMTP_PASS sendMail_result (Some b)
   = handler SMTP_USER SMTP_PASS sendMail_result
       (Some (with_email VUndefined b)))
  /\ (blank (message b) = true ->
      handler SMTP_USER SMTP_PASS sendMail_result (Some b)
      = handler SMTP_USER SMTP_PASS sendMail_result
          (Some (with_message VUndefined b))).
Proof.
  intros Hvalid. split; intros Hblank.
  - rewrite (handler_valid _ _ _ b Hvalid),
      (handler_valid _ _ _ _ (valid_with_email b Hvalid)).
    replace (expected_mail SMTP_USER (with_email VUndefined b))
      with (expected_mail SMTP_USER b); [reflexivity|].
    unfold expected_mail, expected_html, expected_subject. cbn.
    now rewrite (blank_safe_text _ Hblank).
  - rewrite (handler_valid _ _ _ b Hvalid),
      (handler_valid _ _ _ _ (valid_with_message b Hvalid)).
    replace (expected_mail SMTP_USER (with_message VUndefined b))
      with (expected_mail SMTP_USER b); [reflexivity|].
    unfold expected_mail, expected_html, expected_subject. cbn.
    now rewrite (blank_safe_text _ Hblank).
Qed.

Lemma blank_optional_fields_are_dropped_witness :
  handler None (Some (lit "app-password")) always_delivers
    (Some example_blank_optionals)
  = handler None (Some (lit "app-password")) always_delivers
      (Some (with_email VUndefined example_blank_optionals)).
Proof.
  exact (proj1 (blank_optional_fields_are_dropped None
                  (Some (lit "app-password")) always_delivers
                  example_blank_optionals eq_refl) eq_refl).
Defined.

Lemma trim_start_incl (s : jsstring) (x : N) :
  In x (trim_start s) -> In x s.
Proof.
  induction s as [|c s IH]; [easy|].
  cbn. destruct (is_js_space c); [right; auto | easy].
Qed.

Lemma js_trim_incl (s : jsstring) (x : N) : In x (js_trim s) -> In x s.
Proof.
  unfold js_trim. intros H.
  apply in_rev, trim_start_incl in H.
  apply in_rev in H. now apply trim_start_incl.
Qed.

Lemma phone_char_plain (c : N) : phone_char c = true -> plain_char c = true.
Proof.
  intros H. unfold plain_char.
  destruct (N.eqb_spec c AMP) as [->|_]; [discriminate H|].
  destruct (N.eqb_spec c LT) as [->|_]; [discriminate H|].
  destruct (N.eqb_spec c GT) as [->|_]; [discriminate H|].
  destruct (N.eqb_spec c QUOT) as [->|_]; [discriminate H|].
  reflexivity.
Qed.

Lemma escape_html_nonempty (s : jsstring) : s <> [] -> escape_html s <> [].
Proof.
  intros Hs He. pose proof (escape_html_length s) as Hl.
  rewrite He in Hl. destruct s; [congruence | cbn in Hl; lia].
Qed.

Lemma required_ok_safe_text (v : value) (m : N) :
  required_ok v m = true -> safe_text v <> [].
Proof.
  destruct v as [| |s|t o]; cbn [required_ok]; try discriminate.
  rewrite andb_true_iff, negb_true_iff. intros [Hs _].
  unfold safe_text. cbn [text_of]. apply escape_html_nonempty.
  intros Ht. rewrite <- js_trim_blank, Ht in Hs. discriminate.
Qed.

(** X13. In the email of a valid submission the cells of name, phone
    and case type are never empty, and the phone is shown exactly as it
    was sent, trimmed: a phone that passed the format check holds nothing
    to escape. *)
Theorem required_cells_are_shown
    (SMTP_USER : option jsstring) (c : N) (p : jsstring)
    (sendMail_result : transport_options -> mail -> option jsstring)
    (b : Body) :
  valid_submission b = true ->
  exists t m trace r safeName safeCaseType,
    handler SMTP_USER (Some (c :: p)) sendMail_result (Some b)
    = (SendMail t m :: trace, Responded r)
    /\ html m
       = html_template (strict_eq_string (lang b) (lit "he"))
           safeName (js_trim (text_of (phone b))) safeCaseType
           (safe_text (email b)) (nl2br (safe_text (message b)))
    /\ safeName <> []
    /\ js_trim (text_of (phone b)) <> []
    /\ safeCaseType <> [].
Proof.
  intros Hvalid.
  destruct (handler_sends_expected SMTP_USER c p sendMail_result b Hvalid)
    as (trace & r & Hh).
  unfold valid_submission in Hvalid. rewrite !andb_true_iff in Hvalid.
  destruct Hvalid as (((((Hn & Hp) & Hpc) & Hc) & _) & _).
  assert (Hphone : safe_text (phone b) = js_trim (text_of (phone b))).
  { unfold safe_text. apply escape_html_plain. unfold plain.
    apply forallb_forall. intros x Hx. apply phone_char_plain.
    apply js_trim_incl in Hx.
    revert x Hx. now apply forallb_forall. }
  eexists. exists (expected_mail SMTP_USER b), trace, r,
    (safe_text (name b)), (safe_text (caseType b)).
  split; [exact Hh|]. cbn [html expected_mail]. split; [|split; [|split]].
  - unfold expected_html, labels_of.
    now rewrite html_template_layout, Hphone.
  - exact (required_ok_safe_text _ _ Hn).
  - rewrite <- Hphone. exact (required_ok_safe_text _ _ Hp).
  - exact (required_ok_safe_text _ _ Hc).
Qed.

Lemma required_cells_are_shown_witness :
  exists t m trace r,
    handler None (Some (lit "app-password")) always_delivers
      (Some example_blank_optionals)
    = (SendMail t m :: trace, Responded r)
    /\ includes (lit ">050-1234567</td>") (html m) = true.
Proof.
  destruct (required_cells_are_shown None 97 (lit "pp-password")
              always_delivers example_blank_optionals eq_refl)
    as (t & m & trace & r & sn & sc & Hh & Hhtml & _).
  exists t, m, trace, r. split; [exact Hh|].
  injection Hh as _ <- _ _. reflexivity.
Defined.

Lemma no_markup_char_spec (x : N) :
  no_markup_char x = true -> x <> LT /\ x <> GT /\ x <> QUOT.
Proof.
  unfold no_markup_char. rewrite negb_true_iff, !orb_false_iff, !N.eqb_neq.
  tauto.
Qed.

(** X14. The subject of the mail of a valid submission holds no [<],
    [>] or double quote, in either language. *)
Theorem subject_has_no_markup
    (SMTP_USER : option jsstring) (c : N) (p : jsstring)
    (sendMail_result : transport_options -> mail -> option jsstring)
    (b : Body) :
  valid_submission b = true ->
  exists t m trace r,
    handler SMTP_USER (Some (c :: p)) sendMail_result (Some b)
    = (SendMail t m :: trace, Responded r)
    /\ subject m
       = subject_template (strict_eq_string (lang b) (lit "he"))
           (safe_text (name b)) (safe_text (caseType b))
    /\ forall x, In x (subject m) -> x <> LT /\ x <> GT /\ x <> QUOT.
Proof.
  intros Hvalid.
  destruct (handler_sends_expected SMTP_USER c p sendMail_result b Hvalid)
    as (trace & r & Hh).
  eexists. exists (expected_mail SMTP_USER b), trace, r.
  split; [exact Hh|]. cbn [subject expected_mail].
  unfold expected_subject, labels_of. split.
  - now rewrite subject_template_layout.
  - intros x Hx. unfold subject_layout in Hx.
    apply in_app_or in Hx as [Hx|Hx].
    + apply no_markup_char_spec. revert x Hx. apply forallb_forall.
      now destruct (strict_eq_string (lang b) (lit "he")).
    + apply in_app_or in Hx as [Hx|Hx];
        [now apply escape_html_no_markup in Hx|].
      apply in_app_or in Hx as [Hx|Hx];
        [|now apply escape_html_no_markup in Hx].
      apply no_markup_char_spec. revert x Hx. now apply forallb_forall.
Qed.

Lemma subject_has_no_markup_witness :
  exists t m trace r,
    handler None (Some (lit "app-password")) always_delivers
      (Some example_script)
    = (SendMail t m :: trace, Responded r)
    /\ includes [LT] (subject m) = false.
Proof.
  destruct (subject_has_no_markup None 97 (lit "pp-password")
              always_delivers example_script eq_refl)
    as (t & m & trace & r & Hh & Hs & _).
  exists t, m, trace, r. split; [exact Hh|].
  rewrite Hs. reflexivity.
Defined.

Lemma nl2br_app (a b : jsstring) : nl2br (a ++ b) = nl2br a ++ nl2br b.
Proof. unfold nl2br. apply flat_map_app. Qed.

Lemma nl2br_entity_length (y : N) :
  List.length (nl2br (entity y))
  = (List.length (entity y) + 3 * count_occ N.eq_dec [y] LF)%nat.
Proof.
  destruct (entity_cases y) as [[Hy He]|[[Hy He]|[[Hy He]|[[Hy He]|[Hy He]]]]];
    rewrite He; try (rewrite Hy; reflexivity).
  cbn [nl2br flat_map app count_occ].
  destruct (N.eq_dec y LF) as [E|E].
  - rewrite E. reflexivity.
  - apply N.eqb_neq in E. rewrite E. reflexivity.
Qed.

Lemma nl2br_escape_html_length (s : jsstring) :
  List.length (nl2br (escape_html s))
  = (List.length (escape_html s) + 3 * count_occ N.eq_dec s LF)%nat.
Proof.
  induction s as [|y s IH]; [reflexivity|].
  rewrite escape_html_cons, nl2br_app, !length_app, IH, nl2br_entity_length.
  change (y :: s) with ([y] ++ s). rewrite count_occ_app. lia.
Qed.

(** X15. The message cell of the email holds no newline: every line
    feed of the trimmed message has become [<br>], and the cell is three
    code units longer than the escaped message for each of them. *)
Theorem message_cell_has_no_newline
    (SMTP_USER : option jsstring) (c : N) (p : jsstring)
    (sendMail_result : transport_options -> mail -> option jsstring)
    (b : Body) :
  valid_submission b = true ->
  exists t m trace r cell,
    handler SMTP_USER (Some (c :: p)) sendMail_result (Some b)
    = (SendMail t m :: trace, Responded r)
    /\ html m
       = html_template (strict_eq_string (lang b) (lit "he"))
           (safe_text (name b)) (safe_text (phone b))
           (safe_text (caseType b)) (safe_text (email b)) cell
    /\ cell = replace_all LF (lit "<br>") (safe_text (message b))
    /\ (forall x, In x cell -> x <> LF)
    /\ js_length cell
       = js_length (safe_text (message b))
         + 3 * N.of_nat (count_occ N.eq_dec (js_trim (text_of (message b)))
                           LF).
Proof.
  intros Hvalid.
  destruct (handler_sends_expected SMTP_USER c p sendMail_result b Hvalid)
    as (trace & r & Hh).
  eexists. exists (expected_mail SMTP_USER b), trace, r,
    (nl2br (safe_text (message b))).
  split; [exact Hh|]. cbn [html expected_mail].
  split; [|split; [reflexivity|split]].
  - unfold expected_html, labels_of. now rewrite html_template_layout.
  - intros x Hx. unfold nl2br in Hx. apply in_flat_map in Hx as (y & _ & Hx).
    destruct (y =? LF) eqn:Hy.
    + cbn in Hx. repeat destruct Hx as [<-|Hx]; easy.
    + destruct Hx as [<-|[]]. now apply N.eqb_neq.
  - unfold safe_text. unfold js_length.
    rewrite nl2br_escape_html_length. lia.
Qed.

Lemma message_cell_has_no_newline_witness :
  exists t m trace r,
    handler None (Some (lit "app-password")) always_delivers
      (Some example_hebrew)
    = (SendMail t m :: trace, Responded r)
    /\ includes [LF; 115] (html m) = false
    /\ includes (lit "first line<br>second line") (html m) = true.
Proof.
  destruct (message_cell_has_no_newline None 97 (lit "pp-password")
              always_delivers example_hebrew eq_refl)
    as (t & m & trace & r & cell & Hh & Hhtml & -> & _).
  exists t, m, trace, r. split; [exact Hh|].
  rewrite Hhtml. split; reflexivity.
Defined.

(** ** The form of the responses *)

Lemma rejecting_bind {A B : Type} (m : M A) (k : A -> M B) :
  rejecting m -> (forall a, rejecting (k a)) -> rejecting (bind m k).
Proof.
  unfold rejecting, bind. destruct m as [t [a|r|e]]; cbn; intros [-> Hm] Hk.
  - specialize (Hk a). destruct (k a) as [t' c]. exact Hk.
  - now split.
  - now split.
Qed.

Lemma rejecting_quiet {A : Type} (m : M A) :
  fst m = [] -> (forall r, snd m <> Responded r) -> rejecting m.
Proof.
  intros Hf Hs. split; [exact Hf|].
  destruct (snd m) as [a|r|e]; try exact I. now elim (Hs r).
Qed.

Lemma rejecting_ret {A : Type} (a : A) : rejecting (ret a).
Proof. now apply rejecting_quiet. Qed.

Lemma rejecting_ToString (v : value) : rejecting (ToString v).
Proof. destruct v as [| |s|t [s|]]; now apply rejecting_quiet. Qed.

Lemma rejecting_call_trim (v : value) : rejecting (call_trim v).
Proof. destruct v as [| |s|t o]; now apply rejecting_quiet. Qed.

Lemma rejecting_member (req_body : option Body) (k : jsstring) :
  rejecting (member req_body k).
Proof. destruct req_body; now apply rejecting_quiet. Qed.

Lemma rejecting_esc (v : value) : rejecting (esc v).
Proof.
  unfold esc. apply rejecting_bind; [apply rejecting_ToString|].
  intros s. apply rejecting_ret.
Qed.

Lemma rejecting_filterM {A : Type} (p : A -> M bool) (l : list A) :
  (forall x, rejecting (p x)) -> rejecting (filterM p l).
Proof.
  intros Hp. induction l as [|x l IH]; [apply rejecting_ret|].
  cbn [filterM]. apply rejecting_bind; [apply Hp|]. intros keep.
  apply rejecting_bind; [apply IH|]. intros rest. apply rejecting_ret.
Qed.

Lemma rejecting_for_of {A : Type} (body : A -> M unit) (l : list A) :
  (forall x, rejecting (body x)) -> rejecting (for_of l body).
Proof.
  intros Hb. induction l as [|x l IH]; [apply rejecting_ret|].
  cbn [for_of]. apply rejecting_bind; [apply Hb | intros _; apply IH].
Qed.

Lemma rejecting_check_limit (req_body : option Body) (e : jsstring * N) :
  rejecting (check_limit req_body e).
Proof.
  unfold check_limit. apply rejecting_bind; [apply rejecting_member|].
  intros v. apply rejecting_bind.
  - destruct (truthy v); [|apply rejecting_ret].
    apply rejecting_bind; [apply rejecting_member|]. intros v'.
    apply rejecting_bind; [apply rejecting_ToString|]. intros s.
    apply rejecting_ret.
  - intros [|]; [|apply rejecting_ret].
    split; [reflexivity|]. cbn. unfold client_error. cbn.
    repeat split; congruence.
Qed.

Lemma rejecting_validate (req_body : option Body) :
  rejecting (validate req_body).
Proof.
  unfold validate. apply rejecting_bind.
  - unfold missing_fields. apply rejecting_bind.
    + apply rejecting_filterM. intros e. unfold is_missing.
      destruct (is_nullish (snd e)); [apply rejecting_ret|].
      apply rejecting_bind; [apply rejecting_ToString|]. intros s.
      apply rejecting_ret.
    + intros kept. apply rejecting_ret.
  - intros missing. apply rejecting_bind.
    + destruct (negb (array_length missing =? 0)); [|apply rejecting_ret].
      split; [reflexivity|]. cbn. unfold client_error. cbn.
      repeat split; congruence.
    + intros _. apply rejecting_bind.
      * apply rejecting_for_of, rejecting_check_limit.
      * intros _. unfold regex_test. apply rejecting_bind.
        -- apply rejecting_bind; [apply rejecting_ToString|]. intros s.
           apply rejecting_ret.
        -- intros [|]; [apply rejecting_ret|].
           split; [reflexivity|]. cbn. unfold client_error. cbn.
           repeat split; congruence.
Qed.

(** X16. Whatever the body, a response of the handler has [ok: true]
    exactly when its status is 200, carries an error text exactly when
    [ok] is false, and carries a [fields] array only with status 400 and
    the error "Missing required fields". *)
Theorem response_form
    (SMTP_USER SMTP_PASS : option jsstring)
    (sendMail_result : transport_options -> mail -> option jsstring)
    (req_body : option Body) (trace : list event) (r : response) :
  handler SMTP_USER SMTP_PASS sendMail_result req_body
  = (trace, Responded r) ->
  (ok (json r) = true <-> status r = 200)
  /\ (error (json r) = None <-> ok (json r) = true)
  /\ (fields (json r) <> None ->
      status r = 400
      /\ error (json r) = Some (lit "Missing required fields")).
Proof.
  intros Hh.
  assert (Hcases : client_error r \/ r = not_configured_response
                   \/ r = success_response \/ r = send_failed_response).
  { unfold handler in Hh.
    destruct (rejecting_validate req_body) as [_ Hv].
    destruct (validate req_body) as [t0 [[]|r0|e0]]; cbn in Hv.
    - cbn [bind] in Hh.
      destruct (transporter SMTP_USER SMTP_PASS) as [t|].
      + pose proof (render_renderable (body_or_empty req_body)) as Hyes.
        pose proof (render_not_renderable (body_or_empty req_body)) as Hno.
        destruct (renderable (body_or_empty req_body)).
        * destruct (Hyes eq_refl) as (rendered & Hr). rewrite Hr in Hh.
          unfold sendMail, emit, try_catch, bind in Hh.
          destruct (sendMail_result t _); cbn in Hh;
            injection Hh as _ <-; auto.
        * destruct (Hno eq_refl) as (msg & Hr). rewrite Hr in Hh.
          discriminate Hh.
      + cbn in Hh. injection Hh as _ <-. auto.
    - cbn in Hh. injection Hh as _ <-. now left.
    - discriminate Hh. }
  destruct Hcases as [(Hs & Hok & He & Hf) | [-> | [-> | ->]]]; cbn.
  - rewrite Hs, Hok.
    split; [split; intros H; discriminate H|].
    split; [split; intros H; [now elim He | discriminate H]|].
    intros Hx. split; [reflexivity | now apply Hf].
  - repeat split; try discriminate; congruence.
  - repeat split; try discriminate; congruence.
  - repeat split; try discriminate; congruence.
Qed.

Lemma response_form_witness :
  (ok (json (missing_response [lit "name"; lit "caseType"])) = true
   <-> status (missing_response [lit "name"; lit "caseType"]) = 200)
  /\ (error (json (missing_response [lit "name"; lit "caseType"])) = None
      <-> ok (json (missing_response [lit "name"; lit "caseType"])) = true)
  /\ (fields (json (missing_response [lit "name"; lit "caseType"])) <> None
      -> status (missing_response [lit "name"; lit "caseType"]) = 400
         /\ error (json (missing_response [lit "name"; lit "caseType"]))
            = Some (lit "Missing required fields")).
Proof.
  exact (response_form None None always_delivers (Some example_missing)
           [] (missing_response [lit "name"; lit "caseType"]) eq_refl).
Defined.

(** ** Trimmed cells *)

Lemma trim_start_first (s : jsstring) (x : N) :
  first_unit (trim_start s) = Some x -> is_js_space x = false.
Proof.
  induction s as [|c s IH]; [discriminate|].
  cbn [trim_start]. destruct (is_js_space c) eqn:Hc; [exact IH|].
  cbn. intros H. injection H as <-. exact Hc.
Qed.

Lemma trim_start_suffix (s : jsstring) :
  exists pre, s = pre ++ trim_start s.
Proof.
  induction s as [|c s [pre IH]]; [now exists []|].
  cbn [trim_start]. destruct (is_js_space c).
  - exists (c :: pre). cbn. now rewrite <- IH.
  - now exists [].
Qed.

Lemma js_trim_last (s : jsstring) (x : N) :
  last_unit (js_trim s) = Some x -> is_js_space x = false.
Proof.
  unfold last_unit, js_trim. rewrite rev_involutive.
  apply trim_start_first.
Qed.

Lemma js_trim_first (s : jsstring) (x : N) :
  first_unit (js_trim s) = Some x -> is_js_space x = false.
Proof.
  unfold js_trim. intros H.
  destruct (trim_start_suffix (rev (trim_start s))) as [pre Hpre].
  apply (f_equal (@rev N)) in Hpre.
  rewrite rev_involutive, rev_app_distr in Hpre.
  destruct (rev (trim_start (rev (trim_start s)))) as [|y r];
    [discriminate|].
  cbn in H. injection H as ->.
  apply (trim_start_first s). now rewrite Hpre.
Qed.

Lemma entity_ends (c x : N) :
  first_unit (entity c) = Some x \/ last_unit (entity c) = Some x ->
  x = c \/ x = AMP \/ x = 59.
Proof.
  destruct (entity_cases c) as [[-> ->]|[[-> ->]|[[-> ->]|[[-> ->]|[_ ->]]]]];
    cbn; intros [H|H]; injection H as <-; auto.
Qed.

Lemma entity_not_nil (c : N) : entity c <> [].
Proof.
  pose proof (entity_length c) as [H _]. destruct (entity c);
    [cbn in H; lia | discriminate].
Qed.

Lemma first_unit_app (a b : jsstring) :
  a <> [] -> first_unit (a ++ b) = first_unit a.
Proof. now destruct a. Qed.

Lemma last_unit_app (a b : jsstring) :
  b <> [] -> last_unit (a ++ b) = last_unit b.
Proof.
  intros Hb. unfold last_unit. rewrite rev_app_distr.
  apply first_unit_app. intros H. apply (f_equal (@rev N)) in H.
  rewrite rev_involutive in H. now apply Hb.
Qed.

Lemma escape_html_first (s : jsstring) (x : N) :
  first_unit (escape_html s) = Some x ->
  exists c, first_unit s = Some c /\ (x = c \/ x = AMP \/ x = 59).
Proof.
  destruct s as [|c s]; [discriminate|].
  rewrite escape_html_cons, first_unit_app by apply entity_not_nil.
  intros H. exists c. split; [reflexivity|].
  apply entity_ends. now left.
Qed.

Lemma escape_html_app (a b : jsstring) :
  escape_html (a ++ b) = escape_html a ++ escape_html b.
Proof. unfold escape_html. apply flat_map_app. Qed.

Lemma escape_html_last (s : jsstring) (x : N) :
  last_unit (escape_html s) = Some x ->
  exists c, last_unit s = Some c /\ (x = c \/ x = AMP \/ x = 59).
Proof.
  destruct (rev s) as [|c r] eqn:Hr.
  - apply (f_equal (@rev N)) in Hr. rewrite rev_involutive in Hr.
    subst s. discriminate.
  - apply (f_equal (@rev N)) in Hr. rewrite rev_involutive in Hr.
    cbn in Hr. subst s.
    rewrite escape_html_app. cbn [escape_html flat_map].
    rewrite app_nil_r, last_unit_app by apply entity_not_nil.
    intros H. exists c. split.
    + unfold last_unit. now rewrite rev_app_distr.
    + apply entity_ends. now right.
Qed.

Lemma safe_text_trimmed (v : value) (x : N) :
  first_unit (safe_text v) = Some x \/ last_unit (safe_text v) = Some x ->
  is_js_space x = false.
Proof.
  unfold safe_text. intros [H|H].
  - apply escape_html_first in H as (c & Hc & [->|[->| ->]]);
      try reflexivity. now apply js_trim_first in Hc.
  - apply escape_html_last in H as (c & Hc & [->|[->| ->]]);
      try reflexivity. now apply js_trim_last in Hc.
Qed.

(** X17. In the email of a valid submission the texts shown for name,
    phone, case type and email neither start nor end with whitespace,
    whatever surrounded them in the request: each was trimmed before it
    was escaped. *)
Theorem cells_are_trimmed
    (SMTP_USER : option jsstring) (c : N) (p : jsstring)
    (sendMail_result : transport_options -> mail -> option jsstring)
    (b : Body) :
  valid_submission b = true ->
  exists t m trace r safeName safePhone safeCaseType safeEmail,
    handler SMTP_USER (Some (c :: p)) sendMail_result (Some b)
    = (SendMail t m :: trace, Responded r)
    /\ html m
       = html_template (strict_eq_string (lang b) (lit "he"))
           safeName safePhone safeCaseType safeEmail
           (nl2br (safe_text (message b)))
    /\ forall cell x,
         In cell [safeName; safePhone; safeCaseType; safeEmail] ->
         first_unit cell = Some x \/ last_unit cell = Some x ->
         is_js_space x = false.
Proof.
  intros Hvalid.
  destruct (handler_sends_expected SMTP_USER c p sendMail_result b Hvalid)
    as (trace & r & Hh).
  eexists. exists (expected_mail SMTP_USER b), trace, r,
    (safe_text (name b)), (safe_text (phone b)),
    (safe_text (caseType b)), (safe_text (email b)).
  split; [exact Hh|]. cbn [html expected_mail]. split.
  - unfold expected_html, labels_of. now rewrite html_template_layout.
  - intros cell x [<-|[<-|[<-|[<-|[]]]]]; apply safe_text_trimmed.
Qed.

Lemma cells_are_trimmed_witness :
  exists t m trace r,
    handler None (Some (lit "app-password")) always_delivers
      (Some example_blank_optionals)
    = (SendMail t m :: trace, Responded r)
    /\ includes (lit "> 050") (html m) = false.
Proof.
  destruct (cells_are_trimmed None 97 (lit "pp-password") always_delivers
              example_blank_optionals eq_refl)
    as (t & m & trace & r & _ & _ & _ & _ & Hh & _).
  exists t, m, trace, r. split; [exact Hh|].
  injection Hh as _ <- _ _. reflexivity.
Defined.
